(** * packup: asset discovery, content addressing and the generation cycle

    A shallow embedding of the module that creates the assets of an html
    entrypoint, and of the helpers of [util.ts] it calls, followed by the
    properties of the build that the specification states.

    Conventions of the embedding.
    - A JavaScript string is a [string]; a character stands for one code unit
      of ASCII text, and [TextEncoder.encode] is the list of its bytes.
    - The parsed document is an arena: the list of its element nodes in
      document order.  An asset keeps the index of the node it was created
      from, so that rewriting an attribute is an update of the shared arena.
    - Everything that lives outside the repository (file system, clock, path
      functions, html parser and serializer, bundler, sass compiler, the md5
      primitive, the regular expression engine for the patterns that are not
      embedded) is a field of a [Platform] record. *)

From Stdlib Require Import ZArith NArith List Bool Lia Sorted.
From Stdlib Require Import Strings.Ascii Strings.String Strings.Byte.
From Stdlib Require Import DecimalString.
From stdpp Require Import base option list gmap strings.

Local Open Scope char_scope.
Local Open Scope string_scope.
Local Open Scope list_scope.

(** ** JavaScript string primitives *)

Module Js.

(** [s.startsWith(p)] *)
Fixpoint startsWith (s p : string) {struct p} : bool :=
  match p with
  | EmptyString => true
  | String b p' =>
      match s with
      | EmptyString => false
      | String a s' => Ascii.eqb a b && startsWith s' p'
      end
  end.

(** [s.endsWith(p)]: some suffix of [s] is [p]. *)
Fixpoint endsWith (s p : string) : bool :=
  String.eqb s p ||
  match s with
  | EmptyString => false
  | String _ s' => endsWith s' p
  end.

(** [s.includes(p)] *)
Fixpoint includes (s p : string) : bool :=
  startsWith s p ||
  match s with
  | EmptyString => false
  | String _ s' => includes s' p
  end.

Fixpoint drop (n : nat) (s : string) : string :=
  match n, s with
  | S n', String _ s' => drop n' s'
  | _, _ => s
  end.

(** The first occurrence of [p] in [s]: the text before it and the text
    after it. *)
Fixpoint search (s p : string) : option (string * string) :=
  if startsWith s p then Some (EmptyString, drop (String.length p) s)
  else
    match s with
    | EmptyString => None
    | String c s' =>
        match search s' p with
        | Some (pre, post) => Some (String c pre, post)
        | None => None
        end
    end.

(** [GetSubstitution] for a string pattern: there are no captures, so only
    [$$], [$&], [$`] and [$'] are replacement patterns; a dollar followed by
    anything else stands for itself. *)
Fixpoint getSubstitution (matched pre post repl : string) : string :=
  match repl with
  | EmptyString => EmptyString
  | String c tl =>
      if Ascii.eqb c "$" then
        match tl with
        | EmptyString => String c EmptyString
        | String d r =>
            if Ascii.eqb d "$" then String "$" (getSubstitution matched pre post r)
            else if Ascii.eqb d "&" then matched +:+ getSubstitution matched pre post r
            else if Ascii.eqb d "`" then pre +:+ getSubstitution matched pre post r
            else if Ascii.eqb d "'" then post +:+ getSubstitution matched pre post r
            else String c (getSubstitution matched pre post tl)
        end
      else String c (getSubstitution matched pre post tl)
  end.

(** [s.replace(p, repl)] with a string pattern [p]: the first occurrence
    only. *)
Definition replace (s p repl : string) : string :=
  match search s p with
  | Some (pre, post) => pre +:+ getSubstitution p pre post repl +:+ post
  | None => s
  end.

(** [s.split(sep)] for a separator of one character. *)
Fixpoint split (sep : ascii) (s : string) : list string :=
  match s with
  | EmptyString => [EmptyString]
  | String c r =>
      if Ascii.eqb c sep then EmptyString :: split sep r
      else
        match split sep r with
        | h :: t => String c h :: t
        | [] => [String c EmptyString]
        end
  end.

Definition isWhiteSpace (c : ascii) : bool :=
  let n := N_of_ascii c in ((9 <=? n) && (n <=? 13) || (n =? 32))%N.

Fixpoint trimStart (s : string) : string :=
  match s with
  | EmptyString => EmptyString
  | String c r => if isWhiteSpace c then trimStart r else s
  end.

Fixpoint trimEnd (s : string) : string :=
  match s with
  | EmptyString => EmptyString
  | String c r =>
      let r' := trimEnd r in
      if isWhiteSpace c && String.eqb r' EmptyString then EmptyString
      else String c r'
  end.

(** [s.trim()] *)
Definition trim (s : string) : string := trimEnd (trimStart s).

(** Truthiness of a string: [""] is falsy. *)
Definition truthy (s : string) : bool := negb (String.eqb s EmptyString).

(** Truthiness of [string | null]. *)
Definition truthyOpt (o : option string) : bool :=
  match o with
  | Some s => truthy s
  | None => false
  end.

(** A value interpolated in a template literal: [undefined] prints as the
    word. *)
Definition interpolate (o : option string) : string :=
  match o with
  | Some s => s
  | None => "undefined"
  end.

(** [String(n)] for a non-negative integer. *)
Definition decimal (n : N) : string := NilEmpty.string_of_uint (N.to_uint n).

(** [xs.join(sep)] *)
Fixpoint join (sep : string) (xs : list string) : string :=
  match xs with
  | [] => EmptyString
  | [x] => x
  | x :: rest => x +:+ sep +:+ join sep rest
  end.

(** The class [\w]. *)
Definition isWordChar (c : ascii) : bool :=
  let n := N_of_ascii c in
  ((48 <=? n) && (n <=? 57) || (65 <=? n) && (n <=? 90) ||
   (97 <=? n) && (n <=? 122) || (n =? 95))%N.

Fixpoint allWord (s : string) : bool :=
  match s with
  | EmptyString => true
  | String c r => isWordChar c && allWord r
  end.

(** [s.match(/\.([\w]+)$/)]: the leftmost position holding a dot followed by
    one or more word characters up to the end of the input; the result is the
    first capture group. *)
Fixpoint matchExtension (s : string) : option string :=
  match s with
  | EmptyString => None
  | String c r =>
      if Ascii.eqb c "." && truthy r && allWord r then Some r
      else matchExtension r
  end.

(** [s.replace(/\.html$/, "")]: the leftmost position from which the rest of
    the input is exactly [.html]. *)
Fixpoint stripHtmlSuffix (s : string) : string :=
  if String.eqb s ".html" then EmptyString
  else
    match s with
    | EmptyString => EmptyString
    | String c r => String c (stripHtmlSuffix r)
    end.

(** *** Strings used as regular expressions

    [a.match(p)] with a string [p] compiles [p] with [new RegExp(p)], which
    throws a [SyntaxError] when [p] is not a pattern, and searches [a] for
    it. *)

Fixpoint occursIn (c : ascii) (s : string) : bool :=
  match s with
  | EmptyString => false
  | String d r => Ascii.eqb c d || occursIn c r
  end.

Definition isSyntaxChar (c : ascii) : bool := occursIn c "\^$*+?()[]{}|".

Fixpoint hasSyntaxChar (p : string) : bool :=
  match p with
  | EmptyString => false
  | String c r => isSyntaxChar c || hasSyntaxChar r
  end.

Definition isLineTerminator (c : ascii) : bool :=
  let n := N_of_ascii c in ((n =? 10) || (n =? 13))%N.

Definition atomMatches (p a : ascii) : bool :=
  if Ascii.eqb p "." then negb (isLineTerminator a) else Ascii.eqb a p.

(** Search for a pattern of ordinary characters and dots: the pattern matches
    a prefix of the input. *)
Fixpoint matchHere (p s : string) {struct p} : bool :=
  match p with
  | EmptyString => true
  | String b p' =>
      match s with
      | EmptyString => false
      | String a s' => atomMatches b a && matchHere p' s'
      end
  end.

(** The pattern matches somewhere in the input. *)
Fixpoint matchAnywhere (p s : string) : bool :=
  matchHere p s ||
  match s with
  | EmptyString => false
  | String _ s' => matchAnywhere p s'
  end.

(** The patterns that are embedded: characters, the dot, classes, the
    assertions [^] and [$], lookaheads, groups, alternatives and
    quantifiers.  Only the existence of a match is observed, so a group is
    its disjunction, [r+] is [r] followed by [r*], [r?] is [r] or nothing,
    [r{m,n}] is [m] times [r] followed by [n - m] times [r?], and a lazy
    quantifier is the greedy one. *)
Inductive Node :=
| Empty
| Char (c : ascii)
| Dot
| Class (negated : bool) (ranges : list (ascii * ascii))
| LineStart
| LineEnd
| Look (negative : bool) (r : Node)
| Seq (r1 r2 : Node)
| Alt (r1 r2 : Node)
| Star (r : Node).

(** What [new RegExp(p)] comes to: a pattern, a [SyntaxError], or a pattern
    that is left to the engine of the platform: one with a backslash before
    a letter or a digit, with a group that starts with [(?] and is neither
    [(?:] nor a lookahead, or with a count above [maxCount]. *)
Inductive Compiled :=
| Regex (r : Node)
| Invalid
| EngineOnly.

Definition atom (c : ascii) : Node :=
  if Ascii.eqb c "." then Dot else Char c.

(** The terms of an alternative, last term first. *)
Definition sequence (terms : list Node) : Node :=
  fold_left (fun rest term => Seq term rest) terms Empty.

(** The alternatives that are complete, last one first, and the terms of the
    current one. *)
Definition disjunction (alternatives terms : list Node) : Node :=
  fold_left (fun rest alternative => Alt alternative rest) alternatives
    (sequence terms).

(** Whether a quantifier may follow: not at the start of an alternative, not
    after [^] or [$]; after a quantifier only the [?] that makes it lazy. *)
Inductive Quantifiable := NoAtom | Atom | Quantified.

Definition quantify (c : ascii) (r : Node) : Node :=
  if Ascii.eqb c "*" then Star r
  else if Ascii.eqb c "+" then Seq r (Star r)
  else Alt r Empty.

Fixpoint power (n : nat) (r rest : Node) : Node :=
  match n with
  | O => rest
  | S n' => Seq r (power n' r rest)
  end.

(** [r{min}], [r{min,}] and [r{min,max}] *)
Definition repeat (min : N) (max : option N) (r : Node) : Node :=
  power (N.to_nat min) r
    match max with
    | None => Star r
    | Some max => power (N.to_nat (max - min)) (Alt r Empty) Empty
    end.

Definition maxCount : N := 1000.

Definition isDigit (c : ascii) : bool :=
  let n := N_of_ascii c in ((48 <=? n) && (n <=? 57))%N.

Definition isAlphaNumeric (c : ascii) : bool :=
  let n := N_of_ascii c in
  ((48 <=? n) && (n <=? 57) || (65 <=? n) && (n <=? 90) ||
   (97 <=? n) && (n <=? 122))%N.

(** The decimal digits [s] starts with: their value, their number and the
    text after them. *)
Fixpoint digits (s : string) (value : N) (count : nat) : N * nat * string :=
  match s with
  | String c r =>
      if isDigit c then digits r (10 * value + (N_of_ascii c - 48))%N (S count)
      else (value, count, s)
  | EmptyString => (value, count, s)
  end.

(** The text after an opening brace, when the brace starts a quantifier:
    the least count, the greatest count if there is one, and the number of
    characters up to the closing brace, included. *)
Definition interval (s : string) : option (N * option N * nat) :=
  let '(min, n1, r1) := digits s 0%N O in
  if Nat.eqb n1 O then None
  else
    match r1 with
    | String "}" _ => Some (min, Some min, S n1)
    | String "," r2 =>
        let '(max, n2, r3) := digits r2 0%N O in
        match r3 with
        | String "}" _ =>
            Some (min, if Nat.eqb n2 O then None else Some max, S (S (n1 + n2)))
        | _ => None
        end
    | _ => None
    end.

(** A group is capturing or [(?:], or it is a lookahead. *)
Inductive GroupKind :=
| Plain
| Lookahead (negative : bool).

Definition group (kind : GroupKind) (r : Node) : Node :=
  match kind with
  | Plain => r
  | Lookahead negative => Look negative r
  end.

(** Where the reader is inside a class: after the bracket, where [^]
    negates; between atoms; after an atom, where a dash may start a range;
    after an atom and a dash. *)
Inductive ClassState :=
| ClassStart
| ClassOpen
| ClassAtom (a : ascii)
| ClassDash (a : ascii).

(** The reader is in the pattern, in a class, or over characters that were
    read ahead. *)
Inductive Mode :=
| InPattern
| InClass (negated : bool) (ranges : list (ascii * ascii)) (st : ClassState)
| Skip (n : nat) (next : Mode).

(** The ranges of a class that is closed in state [st]: a pending atom is a
    member, and so is a dash that ends the class. *)
Definition closeClass (ranges : list (ascii * ascii)) (st : ClassState)
  : list (ascii * ascii) :=
  match st with
  | ClassAtom a => (a, a) :: ranges
  | ClassDash a => ("-"%char, "-"%char) :: (a, a) :: ranges
  | ClassStart | ClassOpen => ranges
  end.

(** One more atom in a class; [None] when it ends a range that is out of
    order. *)
Definition classAtom (ranges : list (ascii * ascii)) (st : ClassState)
  (c : ascii) : option (list (ascii * ascii) * ClassState) :=
  match st with
  | ClassStart | ClassOpen => Some (ranges, ClassAtom c)
  | ClassAtom a => Some ((a, a) :: ranges, ClassAtom c)
  | ClassDash a =>
      if (N_of_ascii c <? N_of_ascii a)%N then None
      else Some ((a, c) :: ranges, ClassOpen)
  end.

(** The pattern is read from left to right; [groups] holds, for each group
    that is open, its kind and the alternatives and the terms read before
    it. *)
Fixpoint parse (p : string)
  (groups : list (GroupKind * list Node * list Node))
  (alternatives terms : list Node) (q : Quantifiable) (mode : Mode)
  : Compiled :=
  match p with
  | EmptyString =>
      match mode, groups with
      | InPattern, [] => Regex (disjunction alternatives terms)
      | _, _ => Invalid
      end
  | String c rest =>
      match mode with
      | Skip n next =>
          parse rest groups alternatives terms q
            match n with
            | S (S n') => Skip (S n') next
            | _ => next
            end
      | InClass negated ranges st =>
          if Ascii.eqb c "\" then
            match rest with
            | EmptyString => Invalid
            | String d _ =>
                if isAlphaNumeric d then EngineOnly
                else
                  match classAtom ranges st d with
                  | Some (ranges', st') =>
                      parse rest groups alternatives terms q
                        (Skip 1 (InClass negated ranges' st'))
                  | None => Invalid
                  end
            end
          else if Ascii.eqb c "]" then
            parse rest groups alternatives
              (Class negated (closeClass ranges st) :: terms) Atom InPattern
          else
            match st, c with
            | ClassStart, "^"%char =>
                parse rest groups alternatives terms q
                  (InClass true ranges ClassOpen)
            | ClassAtom a, "-"%char =>
                parse rest groups alternatives terms q
                  (InClass negated ranges (ClassDash a))
            | _, _ =>
                match classAtom ranges st c with
                | Some (ranges', st') =>
                    parse rest groups alternatives terms q
                      (InClass negated ranges' st')
                | None => Invalid
                end
            end
      | InPattern =>
          if Ascii.eqb c "\" then
            match rest with
            | EmptyString => Invalid
            | String d _ =>
                if isAlphaNumeric d then EngineOnly
                else
                  parse rest groups alternatives (Char d :: terms) Atom
                    (Skip 1 InPattern)
            end
          else if Ascii.eqb c "{" then
            match interval rest with
            | Some (min, max, n) =>
                if (maxCount <? min)%N ||
                   match max with
                   | Some max => (maxCount <? max)%N
                   | None => false
                   end
                then EngineOnly
                else
                  match q, terms with
                  | Atom, term :: terms' =>
                      if match max with
                         | Some max => (max <? min)%N
                         | None => false
                         end
                      then Invalid
                      else
                        parse rest groups alternatives
                          (repeat min max term :: terms') Quantified
                          (Skip n InPattern)
                  | _, _ => Invalid
                  end
            | None =>
                parse rest groups alternatives (Char c :: terms) Atom InPattern
            end
          else if Ascii.eqb c "[" then
            parse rest groups alternatives terms q
              (InClass false [] ClassStart)
          else if Ascii.eqb c "(" then
            match rest with
            | String "?" (String ":" _) =>
                parse rest ((Plain, alternatives, terms) :: groups) [] []
                  NoAtom (Skip 2 InPattern)
            | String "?" (String "=" _) =>
                parse rest ((Lookahead false, alternatives, terms) :: groups)
                  [] [] NoAtom (Skip 2 InPattern)
            | String "?" (String "!" _) =>
                parse rest ((Lookahead true, alternatives, terms) :: groups)
                  [] [] NoAtom (Skip 2 InPattern)
            | String "?" _ => EngineOnly
            | _ =>
                parse rest ((Plain, alternatives, terms) :: groups) [] []
                  NoAtom InPattern
            end
          else if Ascii.eqb c ")" then
            match groups with
            | [] => Invalid
            | (kind, alternatives', terms') :: groups' =>
                parse rest groups' alternatives'
                  (group kind (disjunction alternatives terms) :: terms')
                  Atom InPattern
            end
          else if Ascii.eqb c "|" then
            parse rest groups (sequence terms :: alternatives) [] NoAtom
              InPattern
          else if Ascii.eqb c "^" then
            parse rest groups alternatives (LineStart :: terms) NoAtom
              InPattern
          else if Ascii.eqb c "$" then
            parse rest groups alternatives (LineEnd :: terms) NoAtom
              InPattern
          else if Ascii.eqb c "*" || Ascii.eqb c "+" || Ascii.eqb c "?" then
            match q, terms with
            | Atom, term :: terms' =>
                parse rest groups alternatives (quantify c term :: terms')
                  Quantified InPattern
            | Quantified, _ =>
                if Ascii.eqb c "?" then
                  parse rest groups alternatives terms NoAtom InPattern
                else Invalid
            | _, _ => Invalid
            end
          else parse rest groups alternatives (atom c :: terms) Atom InPattern
      end
  end.

(** [new RegExp(p)] *)
Definition compile (p : string) : Compiled :=
  parse p [] [] [] NoAtom InPattern.

(** The pattern of a string of ordinary characters and dots. *)
Fixpoint plain (p : string) : Node :=
  match p with
  | EmptyString => Empty
  | String c r => Seq (atom c) (plain r)
  end.

(** [a] is a member of the class. *)
Definition inRanges (a : ascii) (ranges : list (ascii * ascii)) : bool :=
  existsb
    (fun range =>
       (N_of_ascii (fst range) <=? N_of_ascii a)%N &&
       (N_of_ascii a <=? N_of_ascii (snd range))%N)
    ranges.

(** [r] matches from position [i], where the rest of the input is [s], and
    [k] accepts the position it ends at.  An iteration of a star that
    consumes nothing is not taken. *)
Fixpoint run (r : Node) (i : nat) (s : string) (k : nat -> string -> bool)
  {struct r} : bool :=
  match r with
  | Empty => k i s
  | Char c =>
      match s with
      | String a s' => Ascii.eqb a c && k (S i) s'
      | EmptyString => false
      end
  | Dot =>
      match s with
      | String a s' => negb (isLineTerminator a) && k (S i) s'
      | EmptyString => false
      end
  | Class negated ranges =>
      match s with
      | String a s' => xorb negated (inRanges a ranges) && k (S i) s'
      | EmptyString => false
      end
  | LineStart => Nat.eqb i 0 && k i s
  | LineEnd =>
      match s with
      | EmptyString => k i s
      | String _ _ => false
      end
  | Look negative r1 =>
      xorb negative (run r1 i s (fun _ _ => true)) && k i s
  | Seq r1 r2 => run r1 i s (fun i' s' => run r2 i' s' k)
  | Alt r1 r2 => run r1 i s k || run r2 i s k
  | Star r1 =>
      (fix iterate (n : nat) (i : nat) (s : string) {struct n} : bool :=
         k i s ||
         match n with
         | O => false
         | S n' =>
             run r1 i s
               (fun i' s' =>
                  Nat.ltb (String.length s') (String.length s) &&
                  iterate n' i' s')
         end) (String.length s) i s
  end.

(** A match that starts at position [i] or later. *)
Fixpoint searchFrom (r : Node) (i : nat) (s : string) : bool :=
  run r i s (fun _ _ => true) ||
  match s with
  | EmptyString => false
  | String _ s' => searchFrom r (S i) s'
  end.

(** Whether [a.match(p)] is truthy; [None] when [new RegExp(p)] throws.
    [engine p a] is the answer of the platform for a pattern that is left to
    it. *)
Definition matches (engine : string -> string -> option bool) (a p : string)
  : option bool :=
  match compile p with
  | Regex r => Some (searchFrom r 0 a)
  | Invalid => None
  | EngineOnly => engine p a
  end.

End Js.

(** ** Bytes, binary data and the content hash *)

(** What the source hands to [md5] and to the [File] constructor: a string,
    an [ArrayBuffer], or the [Uint8Array] that [Deno.readFile] resolves to. *)
Inductive Data :=
| Text (s : string)
| ArrayBuffer (b : list byte)
| Uint8Array (b : list byte).

(** [encoder.encode(s)] *)
Definition encode (s : string) : list byte := list_byte_of_string s.

(** [String(d)]: a typed array prints as its elements in decimal, joined by
    commas. *)
Definition toString (d : Data) : string :=
  match d with
  | Text s => s
  | ArrayBuffer _ => "[object ArrayBuffer]"
  | Uint8Array b => Js.join "," (map (fun x => Js.decimal (Byte.to_N x)) b)
  end.

(** The bytes a [Blob] holds for one part. *)
Definition blobBytes (d : Data) : list byte :=
  match d with
  | Text s => encode s
  | ArrayBuffer b => b
  | Uint8Array b => b
  end.

Definition hexDigit (n : N) : ascii :=
  ascii_of_N (if (n <? 10)%N then 48 + n else 87 + n).

Definition hexByte (x : byte) : string :=
  let n := Byte.to_N x in
  String (hexDigit (n / 16)) (String (hexDigit (n mod 16)) EmptyString).

(** [toHashString(hash)]: lower-case hexadecimal. *)
Definition toHashString (hash : list byte) : string :=
  fold_right (fun x acc => hexByte x +:+ acc) EmptyString hash.

(** ** The document *)

Record Element := mkElement {
  tagName : string;
  attributes : gmap string string
}.

(** The element nodes of the document, in document order. *)
Abbreviation Document := (list Element).

Definition upperChar (c : ascii) : ascii :=
  let n := N_of_ascii c in
  if ((97 <=? n) && (n <=? 122))%N then ascii_of_N (n - 32) else c.

(** [s.toUpperCase()] on ASCII letters. *)
Fixpoint toUpperCase (s : string) : string :=
  match s with
  | EmptyString => EmptyString
  | String c r => String (upperChar c) (toUpperCase r)
  end.

Fixpoint selectFrom (i : nat) (doc : Document) (tag : string) : list nat :=
  match doc with
  | [] => []
  | e :: rest =>
      if String.eqb (tagName e) tag then i :: selectFrom (S i) rest tag
      else selectFrom (S i) rest tag
  end.

(** [doc.querySelectorAll(query)] for a type selector: the handles of the
    elements of that type, in document order. *)
Definition querySelectorAll (doc : Document) (query : string) : list nat :=
  selectFrom 0 doc (toUpperCase query).

(** [qs(doc, query)] *)
Definition qs (doc : Document) (query : string) : list nat :=
  querySelectorAll doc query.

(** [el.getAttribute(name)]; [None] is [null]. *)
Definition getAttribute (doc : Document) (el : nat) (attr : string)
  : option string :=
  match doc !! el with
  | Some e => attributes e !! attr
  | None => None
  end.

(** [el.setAttribute(name, value)] *)
Definition setAttribute (doc : Document) (el : nat) (attr value : string)
  : Document :=
  alter (fun e => mkElement (tagName e) (<[attr := value]> (attributes e))) el doc.

(** [el.tagName] *)
Definition tagNameOf (doc : Document) (el : nat) : option string :=
  tagName <$> doc !! el.

(** ** Output files *)

Record File := mkFile {
  name : string;
  content : list byte;
  type : string;
  lastModified : Z
}.

(** The options of the [File] constructor ([FilePropertyBag]). *)
Record FilePropertyBag := mkBag {
  bagType : option string;
  bagLastModified : option Z
}.

(** [{ ...file }]: [name], [type] and [lastModified] of a [File] are accessors
    of its prototype, and a spread copies own enumerable properties only, so
    the copy has neither a [type] nor a [lastModified] entry. *)
Definition spreadFile (_ : File) : FilePropertyBag := mkBag None None.

(** ** The platform *)

Record Platform := mkPlatform {
  (** [Deno.readFile(path)]; [None] when it rejects *)
  readFile : string -> option (list byte);
  (** [Date.now()] *)
  now : Z;
  (** [join], [posixPathJoin], [dirname], [basename] of std/path *)
  join : string -> string -> string;
  posixPathJoin : string -> string -> string;
  dirname : string -> string;
  basename : string -> string;
  (** [decoder.decode(bytes)] *)
  decode : list byte -> string;
  (** [new DOMParser().parseFromString(html, "text/html")] *)
  parseFromString : string -> Document;
  (** [doc.documentElement.outerHTML] *)
  outerHTML : Document -> string;
  (** [bundleByEsbuild(path)] of bundle_util.ts; [None] when it rejects *)
  bundleByEsbuild : string -> option Data;
  (** [compile(text)] of sass_util.ts; [None] when it rejects *)
  compileSass : string -> option Data;
  (** [crypto.subtle.digest("MD5", bytes)] *)
  digestMD5 : list byte -> list byte;
  (** [deno info --json path], the module specifiers; [None] on a non-zero
      exit code *)
  denoInfo : string -> option (list string);
  (** [fromFileUrl(url)] *)
  fromFileUrl : string -> string;
  (** [a.match(p)] for a pattern [p] that [Js.compile] leaves to the engine:
      [regExpMatch p a] is whether the result is truthy, [None] when
      [new RegExp(p)] throws *)
  regExpMatch : string -> string -> option bool
}.

(** ** Results and the document-state monad *)

Inductive Error :=
| EntrypointNotHtml (path : string)
| BadEntrypointName (path : string)
| ReadFailed (path : string)
| BundleFailed (path : string)
| SassFailed
| DenoInfoFailed (path : string)
| RegExpSyntaxError (pattern : string).

Inductive Result (A : Type) :=
| Ok (a : A)
| Throw (e : Error).
Arguments Ok {A} a.
Arguments Throw {A} e.

(** A computation that reads and updates the shared document and may
    throw. *)
Definition M (A : Type) : Type := Document -> Result (A * Document).

Definition ret {A} (a : A) : M A := fun doc => Ok (a, doc).

Definition bind {A B} (m : M A) (k : A -> M B) : M B :=
  fun doc =>
    match m doc with
    | Ok (a, doc') => k a doc'
    | Throw e => Throw e
    end.

Definition throw {A} (e : Error) : M A := fun _ => Throw e.

Definition orThrow {A} (o : option A) (e : Error) : M A :=
  match o with
  | Some a => ret a
  | None => throw e
  end.

Definition getAttributeM (el : nat) (attr : string) : M (option string) :=
  fun doc => Ok (getAttribute doc el attr, doc).

Definition setAttributeM (el : nat) (attr value : string) : M unit :=
  fun doc => Ok (tt, setAttribute doc el attr value).

Definition when (b : bool) (m : M unit) : M unit := if b then m else ret tt.

Notation "x <- m ;; k" := (bind m (fun x => k))
  (at level 100, m at next level, right associativity).
Notation "m ;; k" := (bind m (fun _ => k))
  (at level 100, right associativity).

(** ** util.ts *)

(** [isLocalUrl(url)] *)
Definition isLocalUrl (url : string) : bool :=
  negb (Js.startsWith url "http://" || Js.startsWith url "https://").

Section Util.
Context (P : Platform).

(** [md5(data)]: only an [ArrayBuffer] is hashed as it is; anything else goes
    through [new TextEncoder().encode(data)], which encodes [String(data)]. *)
Definition md5 (data : Data) : string :=
  toHashString
    (digestMD5 P
       (match data with
        | ArrayBuffer b => b
        | _ => encode (toString data)
        end)).

(** [getDependencies(path)] *)
Definition getDependencies (path : string) : Result (list string) :=
  match denoInfo P path with
  | Some specifiers => Ok specifiers
  | None => Throw (DenoInfoFailed path)
  end.

(** [getLocalDependencies(path)] *)
Definition getLocalDependencies (path : string) : Result (list string) :=
  match getDependencies path with
  | Ok specifiers => Ok (List.filter (fun s => Js.startsWith s "file:") specifiers)
  | Throw e => Throw e
  end.

(** [getLocalDependencyPaths(path)] *)
Definition getLocalDependencyPaths (path : string) : Result (list string) :=
  match getLocalDependencies path with
  | Ok specifiers => Ok (map (fromFileUrl P) specifiers)
  | Throw e => Throw e
  end.

Definition isPrintable (c : ascii) : bool :=
  let n := N_of_ascii c in ((32 <=? n) && (n <=? 126))%N.

Fixpoint allPrintable (s : string) : bool :=
  match s with
  | EmptyString => true
  | String c r => isPrintable c && allPrintable r
  end.

Definition lowerChar (c : ascii) : ascii :=
  let n := N_of_ascii c in
  if ((65 <=? n) && (n <=? 90))%N then ascii_of_N (n + 32) else c.

Fixpoint toLowerCase (s : string) : string :=
  match s with
  | EmptyString => EmptyString
  | String c r => String (lowerChar c) (toLowerCase r)
  end.

(** The media type a [Blob] keeps: lower case, or empty when a character is
    outside U+0020..U+007E. *)
Definition normalizeType (t : string) : string :=
  if allPrintable t then toLowerCase t else EmptyString.

(** [new File(fileBits, fileName, options)]: a missing [type] is the empty
    string and a missing [lastModified] is the current time. *)
Definition newFile (fileBits : list Data) (fileName : string)
  (options : FilePropertyBag) : File :=
  mkFile fileName
    (List.concat (map blobBytes fileBits))
    (normalizeType (default EmptyString (bagType options)))
    (default (now P) (bagLastModified options)).

End Util.

(** ** The assets *)

Record GenerateAssetsOptions := mkOptions {
  watchPaths : bool;
  insertLivereloadScript : bool;
  livereloadPort : option N;
  mainAs404 : bool;
  publicUrl : string
}.

Record CreateFileObjectParams := mkParams {
  pageName : string;
  base : string;
  pathPrefix : string
}.

(** The four kinds of referenced asset; [el] is the handle of the node the
    asset was created from. *)
Inductive Asset :=
| Css (href : string) (el : nat)
| Scss (href : string) (el : nat)
| Script (src : string) (el : nat)
| Image (sources : list string) (el : nat).

Definition elementOf (a : Asset) : nat :=
  match a with
  | Css _ el | Scss _ el | Script _ el | Image _ el => el
  end.

(** [const docType = encoder.encode("<!DOCTYPE html>")] *)
Definition docType : list byte := encode "<!DOCTYPE html>".

Module HtmlAsset.

Record t := mk {
  doc : Document;
  path : string;
  base : string;
  filename : string;
  pageName : string
}.

Section WithPlatform.
Context (P : Platform).

(** [new HtmlAsset(html, path)] *)
Definition new (html path : string) : Result t :=
  let doc := parseFromString P html in
  let base := dirname P path in
  let filename := basename P path in
  if negb (Js.endsWith filename ".html") then Throw (EntrypointNotHtml path)
  else
    let pageName := Js.stripHtmlSuffix filename in
    if negb (Js.truthy pageName) then Throw (BadEntrypointName path)
    else Ok (mk doc path base filename pageName).

(** [HtmlAsset.create(path)] *)
Definition create (path : string) : Result t :=
  match readFile P path with
  | Some bytes => new (decode P bytes) path
  | None => Throw (ReadFailed path)
  end.

(** [createFileObject(_params)], on the document as it is at the time of the
    call. *)
Definition createFileObject (h : t) (_params : CreateFileObjectParams)
  : list File :=
  [newFile P [Uint8Array docType; Uint8Array (encode (outerHTML P (doc h)))]
     (filename h) (mkBag (Some "text/html") (Some 0%Z))].

(** [getWatchPaths()] *)
Definition getWatchPaths (h : t) : list string := [path h].

(** [insertScriptTag(path)]: the new script element becomes the last child of
    the body, hence the last element of the document. *)
Definition insertScriptTag (document : Document) (src : string) : Document :=
  document ++ [mkElement "SCRIPT" {[ "src" := src ]}].

Definition withDoc (h : t) (document : Document) : t :=
  mk document (path h) (base h) (filename h) (pageName h).

End WithPlatform.
End HtmlAsset.

Module CssAsset.

(** [CssAsset.create(link)] *)
Definition create (doc : Document) (link : nat) : option Asset :=
  let href := getAttribute doc link "href" in
  let rel := getAttribute doc link "rel" in
  if negb (bool_decide (rel = Some "stylesheet")) then None
  else
    match href with
    | None => None
    | Some href =>
        if negb (Js.truthy href) then None
        else if Js.startsWith href "https://" || Js.startsWith href "http://"
        then None
        else if Js.endsWith href ".scss" then Some (Scss href link)
        else Some (Css href link)
    end.

Section WithPlatform.
Context (P : Platform).

(** [getWatchPaths(base)] *)
Definition getWatchPaths (href base : string) : Result (list string) :=
  Ok [join P base href].

(** [createFileObject({ pageName, base, pathPrefix })] *)
Definition createFileObject (href : string) (el : nat)
  (params : CreateFileObjectParams) : M (list File) :=
  data <- orThrow (readFile P (join P (base params) href))
            (ReadFailed (join P (base params) href)) ;;
  let hashed := md5 P (Uint8Array data) in
  let dest := pageName params +:+ "." +:+ hashed +:+ ".css" in
  setAttributeM el "href" (posixPathJoin P (pathPrefix params) dest) ;;
  ret [newFile P [Uint8Array data] dest (mkBag (Some "text/css") (Some 0%Z))].

End WithPlatform.
End CssAsset.

Module ScssAsset.
Section WithPlatform.
Context (P : Platform).

(** [createFileObject({ pageName, base, pathPrefix })] *)
Definition createFileObject (href : string) (el : nat)
  (params : CreateFileObjectParams) : M (list File) :=
  scss <- orThrow (readFile P (join P (base params) href))
            (ReadFailed (join P (base params) href)) ;;
  let hashed := md5 P (Uint8Array scss) in
  let dest := pageName params +:+ "." +:+ hashed +:+ ".css" in
  setAttributeM el "href" (posixPathJoin P (pathPrefix params) dest) ;;
  css <- orThrow (compileSass P (decode P scss)) SassFailed ;;
  ret [newFile P [css] dest (mkBag (Some "text/css") (Some 0%Z))].

End WithPlatform.
End ScssAsset.

Module ScriptAsset.

(** [ScriptAsset.create(script)] *)
Definition create (doc : Document) (script : nat) : option Asset :=
  match getAttribute doc script "src" with
  | None => None
  | Some src =>
      if negb (Js.truthy src) then None
      else if Js.startsWith src "http://" || Js.startsWith src "https://"
      then None
      else Some (Script src script)
  end.

Section WithPlatform.
Context (P : Platform).

(** [getWatchPaths(base)] *)
Definition getWatchPaths (src base : string) : Result (list string) :=
  getLocalDependencyPaths P (join P base src).

(** [createFileObject({ pageName, base, pathPrefix })] *)
Definition createFileObject (src : string) (el : nat)
  (params : CreateFileObjectParams) : M (list File) :=
  let path := join P (base params) src in
  data <- orThrow (bundleByEsbuild P path) (BundleFailed path) ;;
  let hashed := md5 P data in
  let dest := pageName params +:+ "." +:+ hashed +:+ ".js" in
  setAttributeM el "src" (posixPathJoin P (pathPrefix params) dest) ;;
  ret [newFile P [data] dest
         (mkBag (Some "application/javascript") (Some 0%Z))].

End WithPlatform.
End ScriptAsset.

Module ImageAsset.

(** [[...new Set(sources)]]: insertion order, first occurrence kept. *)
Fixpoint addAll (set : list string) (sources : list string) : list string :=
  match sources with
  | [] => set
  | s :: rest =>
      if existsb (String.eqb s) set then addAll set rest
      else addAll (set ++ [s]) rest
  end.

Definition removeDuplicates (sources : list string) : list string :=
  addAll [] sources.

(** The sources a [srcset] value names: split at the commas, drop the empty
    pieces, trim, keep what precedes the first space, drop the external
    references. *)
Definition srcsetSources (srcset : string) : list string :=
  List.filter isLocalUrl
    (map (fun src => hd EmptyString (Js.split " " src))
       (map Js.trim
          (List.filter Js.truthy (Js.split "," srcset)))).

(** [ImageAsset.create(img)] *)
Definition create (doc : Document) (img : nat) : option Asset :=
  let src := getAttribute doc img "src" in
  let srcset := getAttribute doc img "srcset" in
  if bool_decide (tagNameOf doc img = Some "IMG") && negb (Js.truthyOpt src)
  then None
  else
    let sources :=
      match src with
      | Some src => if Js.truthy src && isLocalUrl src then [src] else []
      | None => []
      end in
    let sources :=
      match srcset with
      | Some srcset =>
          if Js.truthy srcset then sources ++ srcsetSources srcset else sources
      | None => sources
      end in
    let sources := removeDuplicates sources in
    if (length sources =? 0)%nat then None else Some (Image sources img).

Section WithPlatform.
Context (P : Platform).

Fixpoint sequence (rs : list (Result (list string))) : Result (list (list string)) :=
  match rs with
  | [] => Ok []
  | r :: rest =>
      match r, sequence rest with
      | Ok x, Ok xs => Ok (x :: xs)
      | Throw e, _ => Throw e
      | _, Throw e => Throw e
      end
  end.

(** [getWatchPaths(base)] *)
Definition getWatchPaths (sources : list string) (base : string)
  : Result (list string) :=
  match sequence (map (fun src => getLocalDependencyPaths P (join P base src)) sources) with
  | Ok paths => Ok (List.concat paths)
  | Throw e => Throw e
  end.

(** The body of the loop of [createFileObject], for one source. *)
Definition processSource (el : nat) (params : CreateFileObjectParams)
  (src : string) : M File :=
  data <- orThrow (readFile P (join P (base params) src))
            (ReadFailed (join P (base params) src)) ;;
  let extension := Js.matchExtension src in
  let hashed := md5 P (Uint8Array data) in
  let dest :=
    pageName params +:+ "." +:+ hashed +:+ "." +:+ Js.interpolate extension in
  attr <- getAttributeM el "src" ;;
  hit <- match attr with
         | Some a =>
             orThrow (Js.matches (regExpMatch P) a src) (RegExpSyntaxError src)
         | None => ret false
         end ;;
  when hit (setAttributeM el "src" (posixPathJoin P (pathPrefix params) dest)) ;;
  srcset <- getAttributeM el "srcset" ;;
  match srcset with
  | Some srcset =>
      when (Js.includes srcset src)
        (setAttributeM el "srcset"
           (Js.replace srcset src (posixPathJoin P (pathPrefix params) dest)))
  | None => ret tt
  end ;;
  ret (newFile P [Uint8Array data] dest
         (mkBag (Some ("image/" +:+ Js.interpolate extension)) (Some 0%Z))).

Fixpoint loop (el : nat) (params : CreateFileObjectParams)
  (sources : list string) (files : list File) : M (list File) :=
  match sources with
  | [] => ret files
  | src :: rest =>
      file <- processSource el params src ;;
      loop el params rest (files ++ [file])
  end.

(** [createFileObject({ pageName, base, pathPrefix })] *)
Definition createFileObject (sources : list string) (el : nat)
  (params : CreateFileObjectParams) : M (list File) :=
  loop el params sources [].

End WithPlatform.
End ImageAsset.

(** ** Discovery *)

(** A [for] loop over nodes that yields the asset of each node that has
    one. *)
Fixpoint yieldAssets (create : nat -> option Asset) (nodes : list nat)
  : list Asset :=
  match nodes with
  | [] => []
  | n :: rest =>
      match create n with
      | Some asset => asset :: yieldAssets create rest
      | None => yieldAssets create rest
      end
  end.

Definition extractReferencedScripts (doc : Document) : list Asset :=
  yieldAssets (ScriptAsset.create doc) (qs doc "script").

Definition extractReferencedStyleSheets (doc : Document) : list Asset :=
  yieldAssets (CssAsset.create doc) (qs doc "link").

Definition extractReferencedImages (doc : Document) : list Asset :=
  yieldAssets (ImageAsset.create doc) (qs doc "img" ++ qs doc "source").

Definition extractReferencedAssets (doc : Document) : list Asset :=
  extractReferencedScripts doc ++
  extractReferencedStyleSheets doc ++
  extractReferencedImages doc.

(** ** The generation cycle *)

Section Generation.
Context (P : Platform).

(** [a.createFileObject(params)] *)
Definition createFileObject (a : Asset) (params : CreateFileObjectParams)
  : M (list File) :=
  match a with
  | Css href el => CssAsset.createFileObject P href el params
  | Scss href el => ScssAsset.createFileObject P href el params
  | Script src el => ScriptAsset.createFileObject P src el params
  | Image sources el => ImageAsset.createFileObject P sources el params
  end.

(** [a.getWatchPaths(base)] *)
Definition getWatchPaths (a : Asset) (base : string) : Result (list string) :=
  match a with
  | Css href _ | Scss href _ => CssAsset.getWatchPaths P href base
  | Script src _ => ScriptAsset.getWatchPaths P src base
  | Image sources _ => ImageAsset.getWatchPaths P sources base
  end.

(** The generator [generateAssets] returns: nothing of it has run yet. *)
Record Generator := mkGenerator {
  htmlAsset : HtmlAsset.t;
  assets : list Asset;
  params : CreateFileObjectParams;
  fallback404 : bool
}.

(** What a consumer of a generator sees: the files yielded, and the error
    when the generator threw instead of returning. *)
Record Run := mkRun {
  yielded : list File;
  thrown : option Error
}.

(** The first loop of the generator: the files of each asset are yielded
    when the asset has produced them. *)
Fixpoint yieldAssetFiles (params : CreateFileObjectParams)
  (assets : list Asset) (doc : Document) (files : list File)
  : list File * Result Document :=
  match assets with
  | [] => (files, Ok doc)
  | a :: rest =>
      match createFileObject a params doc with
      | Ok (produced, doc') => yieldAssetFiles params rest doc' (files ++ produced)
      | Throw e => (files, Throw e)
      end
  end.

(** Running the generator to its end. *)
Definition consume (g : Generator) : Run :=
  match yieldAssetFiles (params g) (assets g) (HtmlAsset.doc (htmlAsset g)) [] with
  | (files, Throw e) => mkRun files (Some e)
  | (files, Ok doc) =>
      let html :=
        HtmlAsset.createFileObject P (HtmlAsset.withDoc (htmlAsset g) doc)
          (params g) in
      let files := files ++ html in
      match html with
      | file0 :: _ =>
          if fallback404 g then
            mkRun (files ++ [newFile P [ArrayBuffer (content file0)] "404"
                               (spreadFile file0)]) None
          else mkRun files None
      | [] => mkRun files None
      end
  end.

Fixpoint allWatchPaths (assets : list Asset) (base : string)
  : Result (list string) :=
  match assets with
  | [] => Ok []
  | a :: rest =>
      match getWatchPaths a base, allWatchPaths rest base with
      | Ok paths, Ok more => Ok (paths ++ more)
      | Throw e, _ => Throw e
      | _, Throw e => Throw e
      end
  end.

(** [generateAssets(path, opts)] *)
Definition generateAssets (path : string) (opts : GenerateAssetsOptions)
  : Result (Generator * list string) :=
  match HtmlAsset.create P path with
  | Throw e => Throw e
  | Ok htmlAsset =>
      let pageName := HtmlAsset.pageName htmlAsset in
      let base := HtmlAsset.base htmlAsset in
      let pathPrefix := if Js.truthy (publicUrl opts) then publicUrl opts else "." in
      let assets := extractReferencedAssets (HtmlAsset.doc htmlAsset) in
      let htmlAsset :=
        if insertLivereloadScript opts then
          HtmlAsset.withDoc htmlAsset
            (HtmlAsset.insertScriptTag (HtmlAsset.doc htmlAsset)
               ("http://localhost:" +:+
                Js.interpolate (Js.decimal <$> livereloadPort opts) +:+
                "/livereload.js"))
        else htmlAsset in
      let generator :=
        mkGenerator htmlAsset assets (mkParams pageName base pathPrefix)
          (mainAs404 opts) in
      if watchPaths opts then
        match allWatchPaths assets (HtmlAsset.base htmlAsset) with
        | Ok paths => Ok (generator, path :: paths)
        | Throw e => Throw e
        end
      else Ok (generator, [path])
  end.

End Generation.

(** ** The rest of util.ts *)

(** How a call that returns nothing ends. *)
Inductive Completion :=
| Returns
| ThrowsError (message : string).

(** [checkUniqueEntrypoints(paths)] *)
Definition checkUniqueEntrypoints (P : Platform) (paths : list string)
  : Completion :=
  let uniqueBasenames : gset string := list_to_set (map (basename P) paths) in
  if bool_decide (size uniqueBasenames <> length paths)
  then ThrowsError "Duplicate basenames"
  else Returns.

Definition KB : N := 2 ^ 10.
Definition MB : N := 2 ^ 20.

Definition twoDigits (n : N) : string :=
  Js.decimal (n / 10) +:+ Js.decimal (n mod 10).

(** A number of hundredths, printed with two decimals. *)
Definition printHundredths (h : N) : string :=
  Js.decimal (h / 100) +:+ "." +:+ twoDigits (h mod 100).

(** [(p / q).toFixed(2)] for an integer [p] below 2^53 and a power of two
    [q]: the quotient is then exact in binary64, and [toFixed] prints the
    number of hundredths nearest to it, the larger one on a tie. *)
Definition toFixed2 (p q : N) : string :=
  printHundredths ((200 * p + q) / (2 * q)).

(** [byteSize(n)], for a size [n] that is a non-negative integer below
    2^53. *)
Definition byteSize (n : N) : string :=
  if (MB <? n)%N then toFixed2 n MB +:+ "MB"
  else if (KB <? n)%N then toFixed2 n KB +:+ "KB"
  else Js.decimal n +:+ "B".

(** ** Vocabulary of the specification *)

Inductive Kind := ScriptKind | StylesheetKind | ImageKind.

Definition kindOf (a : Asset) : Kind :=
  match a with
  | Script _ _ => ScriptKind
  | Css _ _ | Scss _ _ => StylesheetKind
  | Image _ _ => ImageKind
  end.

(** A list of assets is in document order when the handles of their nodes
    increase. *)
Definition inDocumentOrder (group : list Asset) : Prop :=
  StronglySorted lt (map elementOf group).

(** The order of discovery as the specification words it: three groups, by
    kind, each in document order. *)
Definition threeGroupsInDocumentOrder (discovered : list Asset) : Prop :=
  exists scripts styles images,
    discovered = scripts ++ styles ++ images /\
    Forall (fun a => kindOf a = ScriptKind) scripts /\
    Forall (fun a => kindOf a = StylesheetKind) styles /\
    Forall (fun a => kindOf a = ImageKind) images /\
    inDocumentOrder scripts /\
    inDocumentOrder styles /\
    inDocumentOrder images.

(** What one scan of the document yields: the assets of all the nodes of one
    type, in document order. *)
Definition scanOf (doc : Document) (tag : string) (kind : Kind)
  (create : nat -> option Asset) (group : list Asset) : Prop :=
  inDocumentOrder group /\
  Forall (fun a => kindOf a = kind /\
                   tagNameOf doc (elementOf a) = Some tag /\
                   create (elementOf a) = Some a) group /\
  (forall n a, tagNameOf doc n = Some tag -> create n = Some a -> a ∈ group).

(** The local sources of a node as the specification words them: those of
    [src] and of the URL tokens of [srcset], merged, without duplicates. *)
Definition localSources (doc : Document) (el : nat) : list string :=
  ImageAsset.removeDuplicates
    (match getAttribute doc el "src" with
     | Some src => if Js.truthy src && isLocalUrl src then [src] else []
     | None => []
     end ++
     match getAttribute doc el "srcset" with
     | Some srcset => ImageAsset.srcsetSources srcset
     | None => []
     end).

(** A file is content addressed when it holds the bytes of [data] and is
    named after the page, the digest of [data] and the extension. *)
Definition contentAddressed (P : Platform) (params : CreateFileObjectParams)
  (extension : string) (data : Data) (file : File) : Prop :=
  name file =
    pageName params +:+ "." +:+ md5 P data +:+ "." +:+ extension /\
  content file = blobBytes data.

(** The files of a Stylesheet, Script or Image asset are content addressed:
    one file for the stylesheet read from disk, one for the bundle of the
    script, one for each source of the image. *)
Definition addressed (P : Platform) (params : CreateFileObjectParams)
  (a : Asset) (files : list File) : Prop :=
  match a with
  | Css href _ =>
      exists data file,
        readFile P (join P (base params) href) = Some data /\
        files = [file] /\
        contentAddressed P params "css" (Uint8Array data) file
  | Script src _ =>
      exists data file,
        bundleByEsbuild P (join P (base params) src) = Some data /\
        files = [file] /\
        contentAddressed P params "js" data file
  | Image sources _ =>
      Forall2
        (fun src file =>
           exists data,
             readFile P (join P (base params) src) = Some data /\
             contentAddressed P params
               (Js.interpolate (Js.matchExtension src)) (Uint8Array data) file)
        sources files
  | Scss _ _ => True
  end.

(** Two platforms that show the same files, the same bundles and the same
    digests. *)
Definition sameInputs (P Q : Platform) : Prop :=
  (forall path, readFile P path = readFile Q path) /\
  (forall a b, join P a b = join Q a b) /\
  (forall path, bundleByEsbuild P path = bundleByEsbuild Q path) /\
  (forall bytes, digestMD5 P bytes = digestMD5 Q bytes).

(** The assets produce their files one after the other, each on the document
    the previous one left. *)
Inductive produces (P : Platform) (params : CreateFileObjectParams)
  : list Asset -> Document -> list (list File) -> Document -> Prop :=
| produces_nil (doc : Document) : produces P params [] doc [] doc
| produces_cons (a : Asset) (rest : list Asset) (doc doc' doc'' : Document)
    (files : list File) (groups : list (list File)) :
    createFileObject P a params doc = Ok (files, doc') ->
    produces P params rest doc' groups doc'' ->
    produces P params (a :: rest) doc (files :: groups) doc''.

(** The document after the loop of [ImageAsset.createFileObject] has looked
    at [srcset] for the source [src], whose new reference is [target]. *)
Definition srcsetRewritten (doc : Document) (el : nat) (src target : string)
  : Document :=
  match getAttribute doc el "srcset" with
  | Some srcset =>
      if Js.includes srcset src
      then setAttribute doc el "srcset" (Js.replace srcset src target)
      else doc
  | None => doc
  end.

(** The file the loop makes for the source [src] read as [data]. *)
Definition imageFile (P : Platform) (params : CreateFileObjectParams)
  (src : string) (data : list byte) : File :=
  let extension := Js.interpolate (Js.matchExtension src) in
  mkFile
    (pageName params +:+ "." +:+ md5 P (Uint8Array data) +:+ "." +:+ extension)
    data
    (normalizeType ("image/" +:+ extension))
    0.

(** The references an asset holds. *)
Definition references (a : Asset) : list string :=
  match a with
  | Css href _ | Scss href _ => [href]
  | Script src _ => [src]
  | Image sources _ => sources
  end.

(** The attributes that the production of an asset may write. *)
Definition writtenAttributes (a : Asset) : list string :=
  match a with
  | Css _ _ | Scss _ _ => ["href"]
  | Script _ _ => ["src"]
  | Image _ _ => ["src"; "srcset"]
  end.

(** The bytes [md5] hands to the digest primitive. *)
Definition hashedBytes (data : Data) : list byte :=
  match data with
  | ArrayBuffer b => b
  | _ => encode (toString data)
  end.

(** What a production may change in the document: nothing but the listed
    attributes, and nothing of a node other than [el]. *)
Definition onlyWrites (el : nat) (attrs : list string) (doc doc' : Document)
  : Prop :=
  length doc' = length doc /\
  (forall el', el' <> el -> doc' !! el' = doc !! el') /\
  (forall el', tagNameOf doc' el' = tagNameOf doc el') /\
  (forall el' attr,
     attr ∉ attrs -> getAttribute doc' el' attr = getAttribute doc el' attr).

(** The address of the livereload script. *)
Definition livereloadUrl (port : option N) : string :=
  "http://localhost:" +:+ Js.interpolate (Js.decimal <$> port) +:+
  "/livereload.js".

(** What the document says of a stylesheet or a script once its files are
    made: the reference of the node is the joined prefix and file name. *)
Definition refersTo (P : Platform) (params : CreateFileObjectParams) (doc : Document)
  (a : Asset) (files : list File) : Prop :=
  match a with
  | Css _ el | Scss _ el =>
      exists file,
        files = [file] /\ type file = "text/css" /\
        getAttribute doc el "href" =
          Some (posixPathJoin P (pathPrefix params) (name file))
  | Script _ el =>
      exists file,
        files = [file] /\ type file = "application/javascript" /\
        getAttribute doc el "src" =
          Some (posixPathJoin P (pathPrefix params) (name file))
  | Image _ _ => True
  end.

Definition isHexDigit (c : ascii) : bool :=
  let n := N_of_ascii c in
  ((48 <=? n) && (n <=? 57) || (97 <=? n) && (n <=? 102))%N.

Fixpoint allHex (s : string) : bool :=
  match s with
  | EmptyString => true
  | String c r => isHexDigit c && allHex r
  end.

Definition hexValue (c : ascii) : N :=
  let n := N_of_ascii c in if (n <? 58)%N then n - 48 else n - 87.

(** One candidate of a [srcset]: a URL, and a descriptor when there is
    one. *)
Definition candidate (c : string * string) : string :=
  if String.eqb (snd c) EmptyString then fst c
  else fst c +:+ " " +:+ snd c.

(** A [srcset] value written the usual way: the candidates, separated by a
    comma and a space. *)
Definition formatSrcset (candidates : list (string * string)) : string :=
  Js.join ", " (map candidate candidates).

Fixpoint noWhiteSpace (s : string) : bool :=
  match s with
  | EmptyString => true
  | String c r => negb (Js.isWhiteSpace c) && noWhiteSpace r
  end.

(** The last character, if there is one, is not white space. *)
Fixpoint endsInText (s : string) : bool :=
  match s with
  | EmptyString => true
  | String c EmptyString => negb (Js.isWhiteSpace c)
  | String _ r => endsInText r
  end.

(** A URL and a descriptor that the comma-and-space notation can carry. *)
Definition wellFormedCandidate (c : string * string) : Prop :=
  fst c <> "" /\
  noWhiteSpace (fst c) = true /\
  Js.occursIn "," (fst c) = false /\
  Js.occursIn "," (snd c) = false /\
  endsInText (snd c) = true.

(** [h] is the number of hundredths nearest to [n / unit], the larger one
    on a tie. *)
Definition nearestHundredths (h n unit : N) : Prop :=
  (2 * unit * h <= 200 * n + unit < 2 * unit * (h + 1))%N.

(** ** A sample platform

    A stand-in for the outside world, used to run the definitions on concrete
    inputs: files are a table, paths are joined with a slash, the digest
    primitive returns its input, the bundler and the sass compiler return the
    text of the file, and the engine finds no match for the patterns that are
    left to it. *)

Module Sample.

Fixpoint lookupFile (table : list (string * list byte)) (path : string)
  : option (list byte) :=
  match table with
  | [] => None
  | (p, bytes) :: rest =>
      if String.eqb p path then Some bytes else lookupFile rest path
  end.

Definition slashJoin (a b : string) : string := a +:+ "/" +:+ b.

Definition lastSegment (path : string) : string :=
  List.last (Js.split "/" path) EmptyString.

Definition directory (path : string) : string :=
  match List.removelast (Js.split "/" path) with
  | [] => "."
  | segments => Js.join "/" segments
  end.

Definition platform (document : Document)
  (table : list (string * list byte)) (clock : Z) : Platform :=
  mkPlatform
    (lookupFile table)
    clock
    slashJoin
    slashJoin
    directory
    lastSegment
    string_of_list_byte
    (fun _ => document)
    (fun _ => "<html><head></head><body></body></html>")
    (fun path => Text <$> (string_of_list_byte <$> lookupFile table path))
    (fun text => Some (Text text))
    (fun bytes => bytes)
    (fun path => Some ["file://" +:+ path])
    (Js.drop 7)
    (fun _ _ => Some false).

Definition element (tag : string) (attrs : list (string * string)) : Element :=
  mkElement tag (list_to_map attrs).

(** A small site: a page with a sass stylesheet, a script and an image, and
    the files they name. *)
Definition page : Document :=
  [element "LINK" [("rel", "stylesheet"); ("href", "style.scss")];
   element "SCRIPT" [("src", "main.ts")];
   element "IMG" [("src", "photo"); ("srcset", "a.png 2x")]].

Definition site : list (string * list byte) :=
  [("site/index.html", list_byte_of_string "<html></html>");
   ("site/style.scss", list_byte_of_string "a{b:c}");
   ("site/main.ts", list_byte_of_string "f()");
   ("site/photo", [x01; x02]%byte);
   ("site/a.png", [x03]%byte);
   ("site/1x", [x04]%byte)].

Definition world : Platform := platform page site 1700000000000.

Definition options : GenerateAssetsOptions :=
  mkOptions false false None true EmptyString.

Definition parameters : CreateFileObjectParams := mkParams "index" "site" ".".

Definition generator : Generator :=
  mkGenerator
    (HtmlAsset.mk page "site/index.html" "site" "index.html" "index")
    [Script "main.ts" 1; Scss "style.scss" 0; Image ["photo"; "a.png"] 2]
    parameters
    true.

(** Images whose source holds a syntax character of regular expressions:
    [a(b] is not a pattern, [a+b] is one. *)
Definition unterminated : Document := [element "IMG" [("src", "a(b")]].


Definition album : Platform :=
  platform []
    [("site/a(b", [x01]%byte); ("site/a+b", [x02]%byte);
     ("site/a+b.png", [x03]%byte)] 0.

(** A page with a stylesheet. *)
Definition styledPage : Document :=
  [element "LINK" [("rel", "stylesheet"); ("href", "style.css")]].

Definition styled : Platform :=
  platform styledPage
    [("site/index.html", list_byte_of_string "<html></html>");
     ("site/style.css", list_byte_of_string "a{b:c}")] 0.

(** The sample site built for the watcher. *)
Definition watchOptions : GenerateAssetsOptions :=
  mkOptions true false None true EmptyString.

(** The sample site built with the livereload script. *)
Definition liveOptions : GenerateAssetsOptions :=
  mkOptions false true (Some 35729%N) false EmptyString.

Definition liveGenerator : Generator :=
  mkGenerator
    (HtmlAsset.mk
       (page ++
        [mkElement "SCRIPT" {[ "src" := "http://localhost:35729/livereload.js" ]}])
       "site/index.html" "site" "index.html" "index")
    [Script "main.ts" 1; Scss "style.scss" 0; Image ["photo"; "a.png"] 2]
    parameters
    false.

(** A generator whose second asset names a file that is not there. *)
Definition brokenGenerator : Generator :=
  mkGenerator
    (HtmlAsset.mk page "site/index.html" "site" "index.html" "index")
    [Script "main.ts" 1; Css "missing.css" 0; Image ["photo"] 2]
    parameters
    true.

End Sample.

(** * Properties *)

(** ** Sanity checks of the string primitives *)

Example startsWith_ex : Js.startsWith "http://a" "http://" = true.
Proof. reflexivity. Qed.
Example split_ex : Js.split "," "a.png 1x, b.png 2x" = ["a.png 1x"; " b.png 2x"].
Proof. reflexivity. Qed.
Example split_empty_ex : Js.split "," "" = [""].
Proof. reflexivity. Qed.
Example trim_ex : Js.trim "  b.png 2x " = "b.png 2x".
Proof. reflexivity. Qed.
Example replace_ex : Js.replace "a.png 1x, 1x 2x" "1x" "J" = "a.png J, 1x 2x".
Proof. reflexivity. Qed.
Example replace_dollar_ex : Js.replace "a.png 1x" "a.png" "p$$q$&r$1" = "p$qa.pngr$1 1x".
Proof. reflexivity. Qed.
Example ext_ex : Js.matchExtension "img/a.b.png" = Some "png".
Proof. reflexivity. Qed.
Example ext_none_ex : Js.matchExtension "img.d/photo" = None.
Proof. reflexivity. Qed.
Example strip_ex : Js.stripHtmlSuffix "index.html" = "index".
Proof. reflexivity. Qed.
Example decimal_ex : Js.decimal 0 = "0" /\ Js.decimal 34567 = "34567".
Proof. split; reflexivity. Qed.
Example matches_ex :
  Js.matches (fun _ _ => None) "http://x/a.png" "a.png" = Some true.
Proof. reflexivity. Qed.
Example matches_plus_ex :
  Js.matches (fun _ _ => None) "a+b.png" "a+b.png" = Some false /\
  Js.matches (fun _ _ => None) "aab.png" "a+b.png" = Some true.
Proof. split; reflexivity. Qed.
Example matches_group_ex :
  Js.matches (fun _ _ => None) "photo(1).png" "photo(1).png" = Some false /\
  Js.matches (fun _ _ => None) "photo1.png" "photo(1).png" = Some true /\
  Js.matches (fun _ _ => None) "abab" "^(ab|c)+$" = Some true /\
  Js.matches (fun _ _ => None) "aba" "^(ab|c)+$" = Some false.
Proof. repeat split; reflexivity. Qed.
Example matches_invalid_ex :
  Js.compile "a(b" = Js.Invalid /\ Js.compile "a)" = Js.Invalid /\
  Js.compile "c++" = Js.Invalid /\ Js.compile "*.png" = Js.Invalid /\
  Js.compile "^*" = Js.Invalid /\ Js.compile "a*??" = Js.Invalid.
Proof. repeat split; reflexivity. Qed.
Example matches_class_ex :
  Js.matches (fun _ _ => None) "a[1].png" "a[1].png" = Some false /\
  Js.matches (fun _ _ => None) "a1.png" "a[1].png" = Some true /\
  Js.matches (fun _ _ => None) "x-y" "^[a-z][^a-z][x-z-]$" = Some true /\
  Js.matches (fun _ _ => None) "]" "[^]]" = Some false /\
  Js.compile "a[b" = Js.Invalid /\ Js.compile "[b-a]" = Js.Invalid.
Proof. repeat split; reflexivity. Qed.
Example matches_brace_ex :
  Js.matches (fun _ _ => None) "img{1}.png" "img{1}.png" = Some false /\
  Js.matches (fun _ _ => None) "img.png" "img{1}.png" = Some true /\
  Js.matches (fun _ _ => None) "{id}.png" "{id}.png" = Some true /\
  Js.matches (fun _ _ => None) "aaa" "^a{2,3}$" = Some true /\
  Js.matches (fun _ _ => None) "aaaa" "^a{2,3}$" = Some false /\
  Js.compile "a{2,1}" = Js.Invalid /\ Js.compile "{2}" = Js.Invalid.
Proof. repeat split; reflexivity. Qed.
Example matches_escape_ex :
  Js.matches (fun _ _ => None) "a.png" "a\.png" = Some true /\
  Js.matches (fun _ _ => None) "a-png" "a\.png" = Some false /\
  Js.matches (fun _ _ => None) "a(b" "a\(b" = Some true /\
  Js.matches (fun _ _ => None) "ab" "a(?=b)" = Some true /\
  Js.matches (fun _ _ => None) "ab" "a(?!b)" = Some false /\
  Js.compile "a\" = Js.Invalid.
Proof. repeat split; reflexivity. Qed.
Example matches_engine_ex :
  Js.compile "a\d" = Js.EngineOnly /\ Js.compile "(?<n>a)" = Js.EngineOnly /\
  Js.compile "[\d]" = Js.EngineOnly /\ Js.compile "a{2000}" = Js.EngineOnly.
Proof. repeat split; reflexivity. Qed.
Example toHashString_ex : toHashString [x00; x0f; xa5; xff]%byte = "000fa5ff".
Proof. reflexivity. Qed.
Example toString_ex : toString (Uint8Array [x68; x69; x00]%byte) = "104,105,0".
Proof. reflexivity. Qed.

(** ** Facts about the string primitives *)

Section StringFacts.

Lemma append_cons (c : ascii) (s t : string) :
  String c s +:+ t = String c (s +:+ t).
Proof. reflexivity. Qed.

Lemma append_nil_l (s : string) : "" +:+ s = s.
Proof. reflexivity. Qed.

Lemma append_nil_r (s : string) : s +:+ "" = s.
Proof.
  induction s as [|c s IH]; [reflexivity|]. now rewrite append_cons, IH.
Qed.

Lemma append_assoc (a b c : string) : (a +:+ b) +:+ c = a +:+ (b +:+ c).
Proof.
  induction a as [|x a IH]; [reflexivity|]. now rewrite !append_cons, IH.
Qed.

Lemma length_append (a b : string) :
  String.length (a +:+ b) = (String.length a + String.length b)%nat.
Proof.
  induction a as [|x a IH]; [reflexivity|].
  rewrite append_cons. simpl. now rewrite IH.
Qed.

Lemma append_inj_r (a b p : string) : a +:+ p = b +:+ p -> a = b.
Proof.
  revert b; induction a as [|x a IH]; intros [|y b] H.
  - reflexivity.
  - apply (f_equal String.length) in H.
    rewrite !length_append in H. simpl in H. lia.
  - apply (f_equal String.length) in H.
    rewrite !length_append in H. simpl in H. lia.
  - rewrite !append_cons in H. injection H as -> H. now rewrite (IH _ H).
Qed.

Lemma startsWith_append (p s : string) : Js.startsWith (p +:+ s) p = true.
Proof.
  induction p as [|c p IH]; [reflexivity|].
  rewrite append_cons. simpl. now rewrite Ascii.eqb_refl, IH.
Qed.

Lemma startsWith_split (s p : string) :
  Js.startsWith s p = true -> s = p +:+ Js.drop (String.length p) s.
Proof.
  revert s; induction p as [|c p IH]; intros s H.
  - now destruct s.
  - destruct s as [|a s]; [discriminate|]. simpl in H.
    apply andb_true_iff in H as [Hc Hp].
    apply Ascii.eqb_eq in Hc; subst a.
    rewrite append_cons. simpl. now rewrite <- (IH s Hp).
Qed.

Lemma endsWith_iff (s p : string) :
  Js.endsWith s p = true <-> exists stem, s = stem +:+ p.
Proof.
  induction s as [|c s IH]; cbn [Js.endsWith].
  - rewrite orb_false_r, String.eqb_eq. split.
    + intros <-. now exists "".
    + intros [[|x stem] H]; [assumption | discriminate].
  - rewrite orb_true_iff, String.eqb_eq, IH. split.
    + intros [<- | [stem ->]]; [now exists "" | now exists (String c stem)].
    + intros [[|x stem] H]; [now left | right].
      rewrite append_cons in H. injection H as _ ->. now exists stem.
Qed.

Lemma stripHtmlSuffix_append (stem : string) :
  Js.stripHtmlSuffix (stem +:+ ".html") = stem.
Proof.
  induction stem as [|c stem IH]; [reflexivity|].
  rewrite append_cons. cbn [Js.stripHtmlSuffix].
  destruct (String.eqb (String c (stem +:+ ".html")) ".html") eqn:E.
  - apply String.eqb_eq in E.
    apply (f_equal String.length) in E. simpl in E.
    rewrite length_append in E. simpl in E. lia.
  - now rewrite IH.
Qed.

Lemma search_sound (s p pre post : string) :
  Js.search s p = Some (pre, post) -> s = pre +:+ p +:+ post.
Proof.
  revert pre post; induction s as [|c s IH]; intros pre post; simpl.
  - destruct (Js.startsWith "" p) eqn:E; [|discriminate].
    intros [= <- <-]. now apply startsWith_split in E.
  - destruct (Js.startsWith (String c s) p) eqn:E.
    + intros [= <- <-]. now apply startsWith_split in E.
    + destruct (Js.search s p) as [[pre' post']|] eqn:E'; [|discriminate].
      intros [= <- <-]. rewrite append_cons. now rewrite <- (IH _ _ eq_refl).
Qed.

(** Before the occurrence that [search] returns the pattern starts
    nowhere. *)
Lemma search_first (s p pre post : string) :
  Js.search s p = Some (pre, post) ->
  forall a b, pre = a +:+ b -> b <> "" ->
    Js.startsWith (b +:+ p +:+ post) p = false.
Proof.
  revert pre post; induction s as [|c s IH]; intros pre post; simpl.
  - destruct (Js.startsWith "" p); [|discriminate].
    intros [= <- <-] a b H Hb. destruct a, b; try discriminate; congruence.
  - destruct (Js.startsWith (String c s) p) eqn:E.
    + intros [= <- <-] a b H Hb. destruct a, b; try discriminate; congruence.
    + destruct (Js.search s p) as [[pre' post']|] eqn:E'; [|discriminate].
      intros [= <- <-] a b H Hb.
      pose proof (search_sound _ _ _ _ E') as Hs.
      destruct a as [|x a].
      * rewrite append_nil_l in H. subst b.
        rewrite append_cons. now rewrite <- Hs.
      * rewrite append_cons in H. injection H as H.
        now apply (IH _ _ eq_refl a b).
Qed.

Lemma includes_search (s p : string) :
  Js.includes s p = true <-> exists pre post, Js.search s p = Some (pre, post).
Proof.
  induction s as [|c s IH]; simpl.
  - destruct (Js.startsWith "" p); simpl.
    + split; [eauto | reflexivity].
    + split; [discriminate | now intros (? & ? & ?)].
  - destruct (Js.startsWith (String c s) p); simpl.
    + split; [eauto | reflexivity].
    + rewrite IH. destruct (Js.search s p) as [[pre post]|].
      * split; eauto.
      * split; now intros (? & ? & ?).
Qed.

(** A replacement text without a dollar is inserted as it is. *)
Lemma getSubstitution_plain (matched pre post repl : string) :
  Js.occursIn "$" repl = false ->
  Js.getSubstitution matched pre post repl = repl.
Proof.
  induction repl as [|c r IH]; [reflexivity|].
  cbn [Js.occursIn Js.getSubstitution]. rewrite orb_false_iff. intros [Hc Hr].
  rewrite Ascii.eqb_sym, Hc. now rewrite (IH Hr).
Qed.

(** [replace] rewrites the first occurrence and nothing else. *)
Lemma replace_first (s p repl pre post : string) :
  Js.search s p = Some (pre, post) ->
  Js.occursIn "$" repl = false ->
  s = pre +:+ p +:+ post /\ Js.replace s p repl = pre +:+ repl +:+ post.
Proof.
  intros Hs Hr. split; [now apply search_sound|].
  unfold Js.replace. now rewrite Hs, getSubstitution_plain.
Qed.

(** A pattern without operators compiles to its characters, and the search
    for it is the search for ordinary characters and dots. *)
Lemma parse_plain (p : string) (terms : list Js.Node) (q : Js.Quantifiable) :
  Js.hasSyntaxChar p = false ->
  Js.parse p [] [] terms q Js.InPattern =
  Js.Regex (fold_left (fun rest term => Js.Seq term rest) terms (Js.plain p)).
Proof.
  revert terms q; induction p as [|c p IH]; intros terms q H; [reflexivity|].
  cbn [Js.hasSyntaxChar] in H. apply orb_false_elim in H as [Hc Hp].
  unfold Js.isSyntaxChar in Hc. cbn [Js.occursIn] in Hc.
  repeat (apply orb_false_elim in Hc as [? Hc]).
  cbn [Js.parse].
  repeat match goal with
         | E : Ascii.eqb c _ = false |- _ => rewrite E; clear E
         end.
  cbn [orb]. now rewrite IH.
Qed.

Lemma run_plain (p : string) (i : nat) (s : string) :
  Js.run (Js.plain p) i s (fun _ _ => true) = Js.matchHere p s.
Proof.
  revert i s; induction p as [|c p IH]; intros i s; [reflexivity|].
  cbn [Js.plain Js.run Js.matchHere]. unfold Js.atom, Js.atomMatches.
  destruct (Ascii.eqb c "."); cbn [Js.run]; destruct s as [|a s];
    try reflexivity; now rewrite IH.
Qed.

Lemma searchFrom_plain (p : string) (i : nat) (s : string) :
  Js.searchFrom (Js.plain p) i s = Js.matchAnywhere p s.
Proof.
  revert i; induction s as [|a s IH]; intros i;
    cbn [Js.searchFrom Js.matchAnywhere]; rewrite run_plain; [reflexivity|].
  now rewrite IH.
Qed.

Lemma matches_plain (engine : string -> string -> option bool) (a p : string) :
  Js.hasSyntaxChar p = false ->
  Js.matches engine a p = Some (Js.matchAnywhere p a).
Proof.
  intros H. unfold Js.matches, Js.compile. rewrite (parse_plain _ _ _ H).
  cbn [fold_left]. now rewrite searchFrom_plain.
Qed.

End StringFacts.

(** ** The entry document *)

Section EntryDocument.
Context (P : Platform).

Lemma truthy_false (s : string) : Js.truthy s = false <-> s = "".
Proof.
  unfold Js.truthy. rewrite negb_false_iff. apply String.eqb_eq.
Qed.

Lemma truthy_true (s : string) : Js.truthy s = true <-> s <> "".
Proof.
  unfold Js.truthy. rewrite negb_true_iff. apply String.eqb_neq.
Qed.

(** C9.  The constructor of the entry document throws exactly when the file
    name of the entrypoint does not end in [.html] or nothing is left of it
    once that extension is stripped; a file name [stem.html] with a non-empty
    stem always gives an entry document, whose page name is the stem. *)
Theorem entry_document_construction (html path : string) :
  ((exists e, HtmlAsset.new P html path = Throw e) <->
   (~ (exists stem, basename P path = stem +:+ ".html") \/
    Js.stripHtmlSuffix (basename P path) = "")) /\
  (forall stem, basename P path = stem +:+ ".html" -> stem <> "" ->
   HtmlAsset.new P html path =
   Ok (HtmlAsset.mk (parseFromString P html) path (dirname P path)
         (basename P path) stem)).
Proof.
  unfold HtmlAsset.new.
  destruct (Js.endsWith (basename P path) ".html") eqn:E; cbn [negb].
  - apply endsWith_iff in E as [stem0 E]. rewrite E.
    rewrite stripHtmlSuffix_append.
    destruct (Js.truthy stem0) eqn:T; cbn [negb].
    + apply truthy_true in T. split.
      * split; [intros [e H]; discriminate|].
        intros [H | H]; [exfalso; apply H; eauto | contradiction].
      * intros stem H _. apply append_inj_r in H. now subst.
    + apply truthy_false in T. subst stem0. split.
      * split; [now right | eauto].
      * intros stem H Hne. exfalso. apply Hne.
        symmetry. now apply (append_inj_r "" stem ".html").
  - split.
    + split; [|eauto]. intros _. left. intros H.
      apply endsWith_iff in H. congruence.
    + intros stem H _. exfalso.
      assert (Js.endsWith (basename P path) ".html" = true)
        by (apply endsWith_iff; eauto).
      congruence.
Qed.

(** [HtmlAsset.create] is the constructor on the decoded bytes of the
    entrypoint; it also rejects when the entrypoint cannot be read. *)
Lemma create_new (path : string) :
  HtmlAsset.create P path =
  match readFile P path with
  | Some bytes => HtmlAsset.new P (decode P bytes) path
  | None => Throw (ReadFailed path)
  end.
Proof. reflexivity. Qed.

End EntryDocument.

(** ** Discovery *)

Section Discovery.

Lemma srcsetSources_empty : ImageAsset.srcsetSources "" = [].
Proof. reflexivity. Qed.

(** What [ImageAsset.create] collects before it removes the duplicates is
    what the specification merges. *)
Lemma create_sources (doc : Document) (el : nat) :
  ImageAsset.create doc el =
  if bool_decide (tagNameOf doc el = Some "IMG") &&
     negb (Js.truthyOpt (getAttribute doc el "src"))
  then None
  else if (length (localSources doc el) =? 0)%nat then None
  else Some (Image (localSources doc el) el).
Proof.
  unfold ImageAsset.create, localSources.
  destruct (bool_decide _ && negb _); [reflexivity|].
  destruct (getAttribute doc el "srcset") as [srcset|]; [|now rewrite app_nil_r].
  destruct (Js.truthy srcset) eqn:T; [reflexivity|].
  apply truthy_false in T. subst srcset.
  now rewrite srcsetSources_empty, app_nil_r.
Qed.

(** C5, as amended.  An [<img>] node without a (non-empty) [src] yields no
    asset, whatever its [srcset]; every other node yields an Image asset,
    holding its de-duplicated local sources, exactly when there is at least
    one of them. *)
Theorem image_discovery (doc : Document) (el : nat) :
  (tagNameOf doc el = Some "IMG" ->
   Js.truthyOpt (getAttribute doc el "src") = false ->
   ImageAsset.create doc el = None) /\
  (~ (tagNameOf doc el = Some "IMG" /\
      Js.truthyOpt (getAttribute doc el "src") = false) ->
   (localSources doc el <> [] ->
    ImageAsset.create doc el = Some (Image (localSources doc el) el)) /\
   (localSources doc el = [] -> ImageAsset.create doc el = None)).
Proof.
  rewrite create_sources. split.
  - intros Htag Hsrc. now rewrite bool_decide_eq_true_2, Hsrc.
  - intros Hguard.
    assert (bool_decide (tagNameOf doc el = Some "IMG") &&
            negb (Js.truthyOpt (getAttribute doc el "src")) = false) as ->.
    { apply andb_false_iff.
      destruct (decide (tagNameOf doc el = Some "IMG")) as [Htag|Htag].
      - right. apply negb_false_iff.
        destruct (Js.truthyOpt _) eqn:E; [reflexivity|].
        exfalso. now apply Hguard.
      - left. now apply bool_decide_eq_false_2. }
    split.
    + intros Hne. destruct (localSources doc el); [contradiction | reflexivity].
    + now intros ->.
Qed.

(** An [<img>] with a local [srcset] and a local [src]. *)
Lemma image_discovery_witness :
  let doc := [Sample.element "IMG" [("src", "b.png"); ("srcset", "a.png 2x")]] in
  ImageAsset.create doc 0 = Some (Image ["b.png"; "a.png"] 0).
Proof.
  intros doc.
  apply (proj1 (proj2 (image_discovery doc 0)
                  ltac:(intros [_ H]; vm_compute in H; discriminate))).
  vm_compute. discriminate.
Defined.

(** C5, as the specification states it, fails: an [<img>] that has a local
    [srcset] but no [src] has a non-empty set of local sources and yet no
    asset. *)
Lemma image_discovery_counterexample :
  let doc := [Sample.element "IMG" [("srcset", "a.png 1x")]] in
  tagNameOf doc 0 = Some "IMG" /\
  localSources doc 0 = ["a.png"] /\
  ImageAsset.create doc 0 = None /\
  ~ (is_Some (ImageAsset.create doc 0) <-> localSources doc 0 <> []).
Proof.
  intros doc.
  assert (Hs : localSources doc 0 = ["a.png"]) by (vm_compute; reflexivity).
  assert (Hc : ImageAsset.create doc 0 = None) by (vm_compute; reflexivity).
  repeat split; try assumption.
  intros [_ H]. rewrite Hs, Hc in H.
  destruct H as [x Hx]; [discriminate | discriminate].
Qed.

End Discovery.

(** ** The order of discovery *)

Section DiscoveryOrder.

Lemma selectFrom_bound (i : nat) (doc : Document) (tag : string) :
  Forall (fun n => i <= n) (selectFrom i doc tag).
Proof.
  revert i; induction doc as [|e doc IH]; intros i; simpl; [constructor|].
  assert (Forall (fun n => i <= n) (selectFrom (S i) doc tag)).
  { eapply Forall_impl; [apply IH|]. simpl. lia. }
  destruct (String.eqb (tagName e) tag); [constructor; [lia|]|]; assumption.
Qed.

Lemma selectFrom_sorted (i : nat) (doc : Document) (tag : string) :
  StronglySorted lt (selectFrom i doc tag).
Proof.
  revert i; induction doc as [|e doc IH]; intros i; simpl; [constructor|].
  destruct (String.eqb (tagName e) tag); [|apply IH].
  constructor; [apply IH|].
  eapply Forall_impl; [apply selectFrom_bound|]. simpl. lia.
Qed.

Lemma selectFrom_elem (i : nat) (doc : Document) (tag : string) (n : nat) :
  n ∈ selectFrom i doc tag <->
  i <= n /\ exists e, doc !! (n - i) = Some e /\ tagName e = tag.
Proof.
  revert i; induction doc as [|e doc IH]; intros i; simpl.
  - split; [intros H; inversion H | intros (_ & e & H & _); discriminate].
  - assert (Hrest : n ∈ selectFrom (S i) doc tag <->
              S i <= n /\ exists e', (e :: doc) !! (n - i) = Some e' /\
                                     tagName e' = tag).
    { rewrite IH. split; intros (Hle & e' & Hl & Ht); (split; [lia|]);
        exists e'; (split; [|assumption]).
      - replace (n - i) with (S (n - S i)) by lia. exact Hl.
      - replace (n - i) with (S (n - S i)) in Hl by lia. exact Hl. }
    destruct (String.eqb (tagName e) tag) eqn:E.
    + apply String.eqb_eq in E. rewrite elem_of_cons, Hrest. split.
      * intros [-> | (Hle & H)]; [|split; [lia | exact H]].
        split; [lia|]. exists e. now rewrite Nat.sub_diag.
      * intros (Hle & e' & Hl & Ht).
        destruct (decide (n = i)) as [->|Hne]; [now left | right].
        split; [lia | eauto].
    + apply String.eqb_neq in E. rewrite Hrest. split.
      * intros (Hle & H); split; [lia | exact H].
      * intros (Hle & e' & Hl & Ht).
        destruct (decide (n = i)) as [->|Hne].
        -- rewrite Nat.sub_diag in Hl. simpl in Hl. congruence.
        -- split; [lia | eauto].
Qed.

Lemma qs_elem (doc : Document) (query : string) (n : nat) :
  n ∈ qs doc query <-> tagNameOf doc n = Some (toUpperCase query).
Proof.
  unfold qs, querySelectorAll, tagNameOf.
  rewrite selectFrom_elem, Nat.sub_0_r. split.
  - intros (_ & e & -> & <-). reflexivity.
  - destruct (doc !! n) as [e|]; [|discriminate].
    intros [= H]. split; [lia | eauto].
Qed.

Lemma yieldAssets_app (create : nat -> option Asset) (l1 l2 : list nat) :
  yieldAssets create (l1 ++ l2) = yieldAssets create l1 ++ yieldAssets create l2.
Proof.
  induction l1 as [|n l1 IH]; simpl; [reflexivity|].
  destruct (create n); simpl; now rewrite IH.
Qed.

Section Yield.
Variable create : nat -> option Asset.
Hypothesis create_handle : forall n a, create n = Some a -> elementOf a = n.

Lemma yieldAssets_from (nodes : list nat) :
  Forall (fun a => elementOf a ∈ nodes /\ create (elementOf a) = Some a)
    (yieldAssets create nodes).
Proof.
  induction nodes as [|n nodes IH]; simpl; [constructor|].
  assert (Forall (fun a => elementOf a ∈ n :: nodes /\
                           create (elementOf a) = Some a)
            (yieldAssets create nodes)).
  { eapply Forall_impl; [apply IH|]. simpl. intros a [H1 H2].
    split; [now apply elem_of_cons; right | assumption]. }
  destruct (create n) as [a|] eqn:E; [|assumption].
  constructor; [|assumption].
  rewrite (create_handle _ _ E). split; [apply elem_of_cons; now left | assumption].
Qed.

Lemma yieldAssets_all (nodes : list nat) (n : nat) (a : Asset) :
  n ∈ nodes -> create n = Some a -> a ∈ yieldAssets create nodes.
Proof.
  induction nodes as [|m nodes IH]; intros Hin Hc; [inversion Hin|].
  apply elem_of_cons in Hin as [->|Hin]; simpl.
  - rewrite Hc. apply elem_of_cons; now left.
  - destruct (create m); [apply elem_of_cons; right|]; now apply IH.
Qed.

Lemma yieldAssets_sorted (nodes : list nat) :
  StronglySorted lt nodes -> inDocumentOrder (yieldAssets create nodes).
Proof.
  unfold inDocumentOrder.
  induction 1 as [|n nodes Hs IH Hlt]; simpl; [constructor|].
  destruct (create n) as [a|] eqn:E; [|assumption].
  simpl. rewrite (create_handle _ _ E). constructor; [assumption|].
  apply Forall_map.
  eapply Forall_impl; [apply yieldAssets_from|]. simpl.
  intros b [Hb _]. rewrite Forall_forall in Hlt. now apply Hlt.
Qed.

End Yield.

Lemma script_handle (doc : Document) (n : nat) (a : Asset) :
  ScriptAsset.create doc n = Some a -> elementOf a = n /\ kindOf a = ScriptKind.
Proof.
  unfold ScriptAsset.create.
  destruct (getAttribute doc n "src") as [src|]; [|discriminate].
  destruct (negb _); [discriminate|].
  destruct (_ || _); [discriminate|]. now intros [= <-].
Qed.

Lemma stylesheet_handle (doc : Document) (n : nat) (a : Asset) :
  CssAsset.create doc n = Some a ->
  elementOf a = n /\ kindOf a = StylesheetKind.
Proof.
  unfold CssAsset.create.
  destruct (negb (bool_decide _)); [discriminate|].
  destruct (getAttribute doc n "href") as [href|]; [|discriminate].
  destruct (negb _); [discriminate|].
  destruct (_ || _); [discriminate|].
  destruct (Js.endsWith href ".scss"); now intros [= <-].
Qed.

(** The preprocessed variant is chosen by the extension of [href], and by
    nothing else. *)
Lemma stylesheet_variant (doc : Document) (n : nat) (a : Asset) :
  CssAsset.create doc n = Some a ->
  exists href,
    getAttribute doc n "href" = Some href /\
    getAttribute doc n "rel" = Some "stylesheet" /\
    a = if Js.endsWith href ".scss" then Scss href n else Css href n.
Proof.
  unfold CssAsset.create.
  destruct (bool_decide (getAttribute doc n "rel" = Some "stylesheet")) eqn:R;
    [|discriminate].
  apply bool_decide_eq_true in R. cbn [negb].
  destruct (getAttribute doc n "href") as [href|]; [|discriminate].
  destruct (negb _); [discriminate|].
  destruct (_ || _); [discriminate|].
  intros H. exists href. repeat split; [assumption|].
  destruct (Js.endsWith href ".scss"); congruence.
Qed.

Lemma image_handle (doc : Document) (n : nat) (a : Asset) :
  ImageAsset.create doc n = Some a -> elementOf a = n /\ kindOf a = ImageKind.
Proof.
  rewrite create_sources.
  destruct (_ && _); [discriminate|].
  destruct (_ =? _)%nat; [discriminate|]. now intros [= <-].
Qed.

Lemma scan_yield (doc : Document) (query : string) (kind : Kind)
  (create : nat -> option Asset) :
  (forall n a, create n = Some a -> elementOf a = n /\ kindOf a = kind) ->
  scanOf doc (toUpperCase query) kind create (yieldAssets create (qs doc query)).
Proof.
  intros H.
  assert (Hh : forall n a, create n = Some a -> elementOf a = n)
    by (intros n a E; apply (H n a E)).
  repeat split.
  - apply yieldAssets_sorted; [assumption | apply selectFrom_sorted].
  - eapply Forall_impl; [apply (yieldAssets_from create Hh)|]. simpl.
    intros a [Hin Hc]. repeat split; try assumption.
    + exact (proj2 (H _ _ Hc)).
    + now apply qs_elem.
  - intros n a Ht Hc. apply (yieldAssets_all create _ n a); [|assumption].
    now apply qs_elem.
Qed.

(** C4, as amended.  Discovery yields four runs: the assets of the script
    nodes, then those of the link nodes, then those of the img nodes, then
    those of the source nodes; each run holds every asset of its nodes, in
    document order. *)
Theorem discovery_order (doc : Document) :
  exists scripts styles imgs srcs,
    extractReferencedAssets doc = scripts ++ styles ++ imgs ++ srcs /\
    scanOf doc "SCRIPT" ScriptKind (ScriptAsset.create doc) scripts /\
    scanOf doc "LINK" StylesheetKind (CssAsset.create doc) styles /\
    scanOf doc "IMG" ImageKind (ImageAsset.create doc) imgs /\
    scanOf doc "SOURCE" ImageKind (ImageAsset.create doc) srcs.
Proof.
  exists (yieldAssets (ScriptAsset.create doc) (qs doc "script")),
         (yieldAssets (CssAsset.create doc) (qs doc "link")),
         (yieldAssets (ImageAsset.create doc) (qs doc "img")),
         (yieldAssets (ImageAsset.create doc) (qs doc "source")).
  split; [|split; [|split; [|split]]].
  - unfold extractReferencedAssets, extractReferencedImages.
    now rewrite yieldAssets_app.
  - exact (scan_yield doc "script" ScriptKind _ (script_handle doc)).
  - exact (scan_yield doc "link" StylesheetKind _ (stylesheet_handle doc)).
  - exact (scan_yield doc "img" ImageKind _ (image_handle doc)).
  - exact (scan_yield doc "source" ImageKind _ (image_handle doc)).
Qed.

(** C4, as the specification states it, fails: in a document whose
    [<source>] precedes its [<img>], the asset of the [<img>] is discovered
    before the asset of the [<source>], so the Image assets are not in
    document order. *)
Lemma discovery_order_counterexample :
  let doc := [Sample.element "SOURCE" [("srcset", "a.png 1x")];
              Sample.element "IMG" [("src", "b.png")]] in
  extractReferencedAssets doc = [Image ["b.png"] 1; Image ["a.png"] 0] /\
  ~ threeGroupsInDocumentOrder (extractReferencedAssets doc).
Proof.
  intros doc.
  assert (E : extractReferencedAssets doc =
              [Image ["b.png"] 1; Image ["a.png"] 0])
    by (vm_compute; reflexivity).
  split; [exact E|]. rewrite E.
  intros (scripts & styles & images & Heq & Hs & Hc & _ & _ & _ & Hord).
  destruct scripts as [|a scripts].
  - destruct styles as [|b styles].
    + simpl in Heq. subst images. unfold inDocumentOrder in Hord. simpl in Hord.
      apply StronglySorted_inv in Hord as [_ Hord].
      apply Forall_inv in Hord. lia.
    + simpl in Heq. injection Heq as <- _.
      apply Forall_inv in Hc. discriminate.
  - simpl in Heq. injection Heq as <- _.
    apply Forall_inv in Hs. discriminate.
Qed.

End DiscoveryOrder.

(** ** Attributes of the shared document *)

Section Attributes.

Lemma getAttribute_setAttribute (doc : Document) (el : nat)
  (attr value : string) :
  is_Some (doc !! el) ->
  getAttribute (setAttribute doc el attr value) el attr = Some value.
Proof.
  intros [e He]. unfold getAttribute, setAttribute.
  rewrite list_lookup_alter_eq, He. simpl. apply lookup_insert_eq.
Qed.

Lemma getAttribute_setAttribute_other (doc : Document) (el el' : nat)
  (attr attr' value : string) :
  el <> el' \/ attr <> attr' ->
  getAttribute (setAttribute doc el attr value) el' attr' =
  getAttribute doc el' attr'.
Proof.
  intros H. unfold getAttribute, setAttribute.
  destruct (decide (el = el')) as [<-|Hne].
  - rewrite list_lookup_alter_eq. destruct (doc !! el) as [e|]; [|reflexivity].
    simpl. apply lookup_insert_ne. destruct H; congruence.
  - now rewrite list_lookup_alter_ne.
Qed.

Lemma tagNameOf_setAttribute (doc : Document) (el el' : nat)
  (attr value : string) :
  tagNameOf (setAttribute doc el attr value) el' = tagNameOf doc el'.
Proof.
  unfold tagNameOf, setAttribute.
  destruct (decide (el = el')) as [<-|Hne].
  - rewrite list_lookup_alter_eq. now destruct (doc !! el).
  - now rewrite list_lookup_alter_ne.
Qed.

End Attributes.

(** ** Production of the files *)

(** Unfolds the monadic operations of a computation applied to a
    document. *)
Ltac run :=
  repeat
    (progress
       (unfold bind, ret, throw, orThrow, when, getAttributeM, setAttributeM;
        cbv beta iota zeta)).

Section Production.
Context (P : Platform).

Lemma newFile_single (data : Data) (fileName mediaType : string) (time : Z) :
  newFile P [data] fileName (mkBag (Some mediaType) (Some time)) =
  mkFile fileName (blobBytes data) (normalizeType mediaType) time.
Proof. unfold newFile. simpl. now rewrite app_nil_r. Qed.

Lemma bind_Ok {A B} (m : M A) (k : A -> M B) (doc doc'' : Document) (b : B) :
  bind m k doc = Ok (b, doc'') <->
  exists a doc', m doc = Ok (a, doc') /\ k a doc' = Ok (b, doc'').
Proof.
  unfold bind. destruct (m doc) as [[a doc']|e]; split.
  - eauto.
  - now intros (? & ? & [= <- <-] & ?).
  - discriminate.
  - now intros (? & ? & ? & ?).
Qed.

(** The stylesheet: one file, named after the digest of the bytes read. *)
Lemma css_createFileObject (href : string) (el : nat)
  (params : CreateFileObjectParams) (doc : Document) :
  CssAsset.createFileObject P href el params doc =
  match readFile P (join P (base params) href) with
  | Some data =>
      let dest :=
        pageName params +:+ "." +:+ md5 P (Uint8Array data) +:+ ".css" in
      Ok ([mkFile dest data "text/css" 0],
          setAttribute doc el "href" (posixPathJoin P (pathPrefix params) dest))
  | None => Throw (ReadFailed (join P (base params) href))
  end.
Proof.
  unfold CssAsset.createFileObject. run.
  destruct (readFile P _); run; [|reflexivity]. now rewrite newFile_single.
Qed.

Lemma scss_createFileObject (href : string) (el : nat)
  (params : CreateFileObjectParams) (doc : Document) :
  ScssAsset.createFileObject P href el params doc =
  match readFile P (join P (base params) href) with
  | Some scss =>
      let dest :=
        pageName params +:+ "." +:+ md5 P (Uint8Array scss) +:+ ".css" in
      match compileSass P (decode P scss) with
      | Some css =>
          Ok ([mkFile dest (blobBytes css) "text/css" 0],
              setAttribute doc el "href"
                (posixPathJoin P (pathPrefix params) dest))
      | None => Throw SassFailed
      end
  | None => Throw (ReadFailed (join P (base params) href))
  end.
Proof.
  unfold ScssAsset.createFileObject. run.
  destruct (readFile P _); run; [|reflexivity].
  destruct (compileSass P _); run; [|reflexivity]. now rewrite newFile_single.
Qed.

Lemma script_createFileObject (src : string) (el : nat)
  (params : CreateFileObjectParams) (doc : Document) :
  ScriptAsset.createFileObject P src el params doc =
  match bundleByEsbuild P (join P (base params) src) with
  | Some data =>
      let dest := pageName params +:+ "." +:+ md5 P data +:+ ".js" in
      Ok ([mkFile dest (blobBytes data) "application/javascript" 0],
          setAttribute doc el "src" (posixPathJoin P (pathPrefix params) dest))
  | None => Throw (BundleFailed (join P (base params) src))
  end.
Proof.
  unfold ScriptAsset.createFileObject. run.
  destruct (bundleByEsbuild P _); run; [|reflexivity].
  now rewrite newFile_single.
Qed.

(** C8.  When the [.scss] source can be read and compiles, the asset gives
    one file: it is named [pageName.digest.css] with the digest of the source
    bytes as read, it holds the output of the sass compiler, and the [href]
    of the node becomes the joined path prefix and file name. *)
Theorem scss_artifact (href : string) (el : nat)
  (params : CreateFileObjectParams) (doc : Document)
  (scss : list byte) (css : Data) :
  readFile P (join P (base params) href) = Some scss ->
  compileSass P (decode P scss) = Some css ->
  exists file doc',
    createFileObject P (Scss href el) params doc = Ok ([file], doc') /\
    name file =
      pageName params +:+ "." +:+ md5 P (Uint8Array scss) +:+ ".css" /\
    content file = blobBytes css /\
    type file = "text/css" /\
    doc' = setAttribute doc el "href"
             (posixPathJoin P (pathPrefix params) (name file)) /\
    (is_Some (doc !! el) ->
     getAttribute doc' el "href" =
     Some (posixPathJoin P (pathPrefix params) (name file))).
Proof.
  intros Hread Hsass. do 2 eexists. split.
  - simpl. rewrite scss_createFileObject, Hread. cbv zeta. rewrite Hsass.
    reflexivity.
  - simpl. repeat split. intros Hel. now apply getAttribute_setAttribute.
Qed.

(** The body of the image loop, in closed form. *)
Lemma processSource_eq (el : nat) (params : CreateFileObjectParams)
  (src : string) (doc : Document) :
  ImageAsset.processSource P el params src doc =
  match readFile P (join P (base params) src) with
  | None => Throw (ReadFailed (join P (base params) src))
  | Some data =>
      let file := imageFile P params src data in
      let target := posixPathJoin P (pathPrefix params) (name file) in
      match getAttribute doc el "src" with
      | Some a =>
          match Js.matches (regExpMatch P) a src with
          | Some true =>
              Ok (file,
                  srcsetRewritten (setAttribute doc el "src" target)
                    el src target)
          | Some false => Ok (file, srcsetRewritten doc el src target)
          | None => Throw (RegExpSyntaxError src)
          end
      | None => Ok (file, srcsetRewritten doc el src target)
      end
  end.
Proof.
  unfold ImageAsset.processSource, imageFile, srcsetRewritten. run.
  destruct (readFile P _) as [data|]; run; [|reflexivity].
  rewrite newFile_single. cbn [name].
  destruct (getAttribute doc el "src") as [a|]; run.
  - destruct (Js.matches _ a src) as [[|]|]; run; [| |reflexivity].
    + destruct (getAttribute _ el "srcset") as [srcset|]; run; [|reflexivity].
      now destruct (Js.includes srcset src).
    + destruct (getAttribute _ el "srcset") as [srcset|]; run; [|reflexivity].
      now destruct (Js.includes srcset src).
  - destruct (getAttribute _ el "srcset") as [srcset|]; run; [|reflexivity].
    now destruct (Js.includes srcset src).
Qed.

Lemma processSource_file (el : nat) (params : CreateFileObjectParams)
  (src : string) (doc doc' : Document) (file : File) :
  ImageAsset.processSource P el params src doc = Ok (file, doc') ->
  exists data,
    readFile P (join P (base params) src) = Some data /\
    file = imageFile P params src data.
Proof.
  rewrite processSource_eq.
  destruct (readFile P _) as [data|]; [|discriminate]. cbv zeta.
  intros H. exists data. split; [reflexivity|].
  destruct (getAttribute doc el "src") as [a|].
  - destruct (Js.matches _ a src) as [[|]|]; congruence.
  - congruence.
Qed.

Lemma loop_files (el : nat) (params : CreateFileObjectParams)
  (sources : list string) (acc files : list File) (doc doc' : Document) :
  ImageAsset.loop P el params sources acc doc = Ok (files, doc') ->
  exists new,
    files = acc ++ new /\
    Forall2
      (fun src file =>
         exists data,
           readFile P (join P (base params) src) = Some data /\
           file = imageFile P params src data)
      sources new.
Proof.
  revert acc doc; induction sources as [|src sources IH]; intros acc doc.
  - simpl. intros [= <- <-]. exists []. now rewrite app_nil_r.
  - cbn [ImageAsset.loop]. intros H.
    apply bind_Ok in H as (file & doc1 & Hstep & Hrest).
    apply IH in Hrest as (new & -> & Hall).
    exists (file :: new). split; [now rewrite <- app_assoc|].
    constructor; [|assumption]. eapply processSource_file, Hstep.
Qed.

Lemma image_createFileObject (sources : list string) (el : nat)
  (params : CreateFileObjectParams) (files : list File) (doc doc' : Document) :
  ImageAsset.createFileObject P sources el params doc = Ok (files, doc') ->
  Forall2
    (fun src file =>
       exists data,
         readFile P (join P (base params) src) = Some data /\
         file = imageFile P params src data)
    sources files.
Proof.
  intros H. apply loop_files in H as (new & -> & H). exact H.
Qed.



End Production.

(** ** The digest in hexadecimal *)

Section Hexadecimal.

Lemma hexByte_shape (x : byte) :
  exists c d,
    hexByte x = String c (String d EmptyString) /\
    isHexDigit c = true /\ isHexDigit d = true /\
    Byte.to_N x = (16 * hexValue c + hexValue d)%N.
Proof.
  exists (hexDigit (Byte.to_N x / 16)), (hexDigit (Byte.to_N x mod 16)).
  split; [reflexivity|]. destruct x; vm_compute; repeat split; reflexivity.
Qed.

Lemma hexByte_inj (x y : byte) : hexByte x = hexByte y -> x = y.
Proof.
  destruct (hexByte_shape x) as (c & d & -> & _ & _ & Hx).
  destruct (hexByte_shape y) as (c' & d' & -> & _ & _ & Hy).
  intros [= <- <-].
  assert (E : Some x = Some y)
    by (rewrite <- (Byte.of_to_N x), <- (Byte.of_to_N y); congruence).
  now injection E.
Qed.

Lemma toHashString_cons (x : byte) (h : list byte) :
  toHashString (x :: h) = hexByte x +:+ toHashString h.
Proof. reflexivity. Qed.

Lemma toHashString_inj (h k : list byte) :
  toHashString h = toHashString k -> h = k.
Proof.
  revert k; induction h as [|x h IH]; intros [|y k]; rewrite ?toHashString_cons.
  - reflexivity.
  - destruct (hexByte_shape y) as (c & d & -> & _). discriminate.
  - destruct (hexByte_shape x) as (c & d & -> & _). discriminate.
  - destruct (hexByte_shape x) as (c & d & Ex & _).
    destruct (hexByte_shape y) as (c' & d' & Ey & _).
    intros H. pose proof H as H'. rewrite Ex, Ey in H'.
    rewrite !append_cons, !append_nil_l in H'. injection H' as Hc Hd Hrest.
    f_equal; [|now apply IH].
    apply hexByte_inj. congruence.
Qed.

End Hexadecimal.

(** ** Content addressing *)

Section ContentAddressing.
Context (P : Platform).

Lemma md5_sameInputs (Q : Platform) (data : Data) :
  sameInputs P Q -> md5 P data = md5 Q data.
Proof. intros (_ & _ & _ & H). unfold md5. now rewrite H. Qed.

Lemma createFileObject_addressed (a : Asset) (params : CreateFileObjectParams)
  (doc doc' : Document) (files : list File) :
  createFileObject P a params doc = Ok (files, doc') ->
  addressed P params a files.
Proof.
  destruct a as [href el|href el|src el|sources el]; simpl.
  - rewrite css_createFileObject.
    destruct (readFile P _) as [data|] eqn:E; [|discriminate].
    cbv zeta. intros [= <- _]. exists data. eexists. repeat split.
  - trivial.
  - rewrite script_createFileObject.
    destruct (bundleByEsbuild P _) as [data|] eqn:E; [|discriminate].
    cbv zeta. intros [= <- _]. exists data. eexists. repeat split.
  - intros H. apply image_createFileObject in H.
    eapply Forall2_impl; [exact H|]. simpl.
    intros src file (data & Hread & ->). exists data. repeat split; assumption.
Qed.

Lemma createFileObject_names (Q : Platform) (a : Asset)
  (params params' : CreateFileObjectParams) (doc doc' doc2 doc2' : Document)
  (files files2 : list File) :
  sameInputs P Q ->
  pageName params' = pageName params ->
  base params' = base params ->
  createFileObject P a params doc = Ok (files, doc') ->
  createFileObject Q a params' doc2 = Ok (files2, doc2') ->
  map name files2 = map name files.
Proof.
  intros HPQ Hpage Hbase.
  pose proof HPQ as (Hread & Hjoin & Hbundle & _).
  destruct a as [href el|href el|src el|sources el]; simpl.
  - rewrite !css_createFileObject, Hbase, <- Hjoin, <- Hread.
    destruct (readFile P _) as [data|]; [|discriminate]. cbv zeta.
    intros [= <- _] [= <- _]. simpl.
    now rewrite Hpage, (md5_sameInputs Q).
  - rewrite !scss_createFileObject, Hbase, <- Hjoin, <- Hread.
    destruct (readFile P _) as [data|]; [|discriminate]. cbv zeta.
    destruct (compileSass P _); [|discriminate].
    destruct (compileSass Q _); [|discriminate].
    intros [= <- _] [= <- _]. simpl.
    now rewrite Hpage, (md5_sameInputs Q).
  - rewrite !script_createFileObject, Hbase, <- Hjoin, <- Hbundle.
    destruct (bundleByEsbuild P _) as [data|]; [|discriminate]. cbv zeta.
    intros [= <- _] [= <- _]. simpl.
    now rewrite Hpage, (md5_sameInputs Q).
  - intros H1 H2.
    apply image_createFileObject in H1. apply image_createFileObject in H2.
    revert files2 H2.
    induction H1 as [|src file sources files (data & Hd & ->) _ IH];
      intros files2 H2; inversion H2 as [|? file2 ? files2' (data2 & Hd2 & ->) Hrest];
      subst; [reflexivity|].
    simpl. rewrite (IH _ Hrest). f_equal.
    rewrite Hbase, <- Hjoin, <- Hread, Hd in Hd2. injection Hd2 as <-.
    now rewrite Hpage, (md5_sameInputs Q).
Qed.

(** C1.  The name of a file does not carry the digest of the bytes that were
    read.  [md5] tests its argument with [instanceof ArrayBuffer]; the
    [Uint8Array] that [Deno.readFile] resolves to is not an [ArrayBuffer], so
    it goes to [TextEncoder.encode], which encodes the string of the array:
    its bytes in decimal, joined by commas.  The file of a stylesheet holds
    the bytes read and is named [pageName.h.css] where [h] is the digest, in
    hexadecimal, of that text; wherever the digest primitive tells the text
    from the bytes, this is not the name made of the digest of the bytes.
    The files of an image are named the same way.  Only for an
    [ArrayBuffer] does [md5] digest the bytes themselves. *)
Theorem read_bytes_hashed_as_text (params : CreateFileObjectParams) :
  (forall data,
     md5 P (ArrayBuffer data) = toHashString (digestMD5 P data) /\
     md5 P (Uint8Array data) =
       toHashString (digestMD5 P (encode (toString (Uint8Array data))))) /\
  (forall href el doc data,
     readFile P (join P (base params) href) = Some data ->
     exists file doc',
       createFileObject P (Css href el) params doc = Ok ([file], doc') /\
       content file = data /\
       name file =
         pageName params +:+ "." +:+
         toHashString (digestMD5 P (encode (toString (Uint8Array data)))) +:+
         ".css" /\
       (digestMD5 P (encode (toString (Uint8Array data))) <> digestMD5 P data ->
        name file <>
        pageName params +:+ "." +:+ toHashString (digestMD5 P data) +:+
        ".css")) /\
  (forall sources el doc doc' files i src file,
     createFileObject P (Image sources el) params doc = Ok (files, doc') ->
     sources !! i = Some src ->
     files !! i = Some file ->
     exists data,
       readFile P (join P (base params) src) = Some data /\
       content file = data /\
       name file =
         pageName params +:+ "." +:+
         toHashString (digestMD5 P (encode (toString (Uint8Array data)))) +:+
         "." +:+ Js.interpolate (Js.matchExtension src) /\
       (digestMD5 P (encode (toString (Uint8Array data))) <> digestMD5 P data ->
        name file <>
        pageName params +:+ "." +:+ toHashString (digestMD5 P data) +:+
        "." +:+ Js.interpolate (Js.matchExtension src))).
Proof.
  split; [intros data; split; reflexivity|]. split.
  - intros href el doc data Hread. simpl.
    rewrite css_createFileObject, Hread. cbv zeta.
    do 2 eexists. split; [reflexivity|]. cbn [content name].
    split; [reflexivity|]. split; [reflexivity|].
    intros Hdiff H. apply Hdiff.
    apply String.app_inj, String.app_inj, append_inj_r in H.
    now apply toHashString_inj.
  - intros sources el doc doc' files i src file Hrun Hi Hfile.
    apply image_createFileObject in Hrun.
    destruct (Forall2_lookup_l _ _ _ _ _ Hrun Hi)
      as (f & Hf & data & Hread & ->).
    rewrite Hf in Hfile. injection Hfile as <-.
    exists data. split; [exact Hread|]. unfold imageFile. cbn [content name].
    split; [reflexivity|]. split; [reflexivity|].
    intros Hdiff H. apply Hdiff.
    apply String.app_inj, String.app_inj, append_inj_r in H.
    now apply toHashString_inj.
Qed.

End ContentAddressing.

(** ** Rewriting the attributes of an image *)

Section ImageRewriting.
Context (P : Platform).

(** C6.  The loop tests the [src] attribute with [match], that is, it
    searches the attribute for the source read as a regular expression.  On
    [<img src="http://x/a.png" srcset="a.png 1x">] the only local source is
    [a.png]; the attribute is not that source, and yet it is overwritten with
    the reference to the new file. *)
Theorem remote_src_overwritten (params : CreateFileObjectParams)
  (data : list byte) :
  let doc := [Sample.element "IMG"
                [("src", "http://x/a.png"); ("srcset", "a.png 1x")]] in
  readFile P (join P (base params) "a.png") = Some data ->
  exists file doc',
    ImageAsset.create doc 0 = Some (Image ["a.png"] 0) /\
    createFileObject P (Image ["a.png"] 0) params doc = Ok ([file], doc') /\
    getAttribute doc 0 "src" = Some "http://x/a.png" /\
    getAttribute doc' 0 "src" =
      Some (posixPathJoin P (pathPrefix params) (name file)).
Proof.
  intros doc Hread.
  set (file := imageFile P params "a.png" data).
  set (target := posixPathJoin P (pathPrefix params) (name file)).
  assert (Hsrc : getAttribute doc 0 "src" = Some "http://x/a.png")
    by (vm_compute; reflexivity).
  assert (Hset : getAttribute (setAttribute doc 0 "src" target) 0 "srcset" =
                 Some "a.png 1x").
  { rewrite getAttribute_setAttribute_other by (right; discriminate).
    vm_compute; reflexivity. }
  exists file,
    (setAttribute (setAttribute doc 0 "src" target) 0 "srcset"
       (Js.replace "a.png 1x" "a.png" target)).
  split; [vm_compute; reflexivity|]. split; [|split; [exact Hsrc|]].
  - simpl. unfold ImageAsset.createFileObject. cbn [ImageAsset.loop].
    unfold bind. rewrite processSource_eq, Hread. cbv zeta. rewrite Hsrc.
    rewrite matches_plain by reflexivity.
    change (Js.matchAnywhere "a.png" "http://x/a.png") with true.
    fold file. fold target. unfold srcsetRewritten. rewrite Hset.
    change (Js.includes "a.png 1x" "a.png") with true. reflexivity.
  - rewrite getAttribute_setAttribute_other by (right; discriminate).
    apply getAttribute_setAttribute. now eexists.
Qed.

(** C7.  The loop rewrites [srcset] with [replace], which takes the first
    place where the source occurs as text.  On
    [<img src="1x" srcset="a.png 1x, 1x 2x">] the source [1x] first occurs as
    the descriptor of [a.png]: that descriptor is replaced by the new
    reference, and the URL [1x] stays as it was. *)
Theorem srcset_descriptor_overwritten (params : CreateFileObjectParams)
  (data : list byte) :
  let doc := [Sample.element "IMG"
                [("src", "1x"); ("srcset", "a.png 1x, 1x 2x")]] in
  let file := imageFile P params "1x" data in
  let target := posixPathJoin P (pathPrefix params) (name file) in
  readFile P (join P (base params) "1x") = Some data ->
  Js.occursIn "$" target = false ->
  exists doc',
    ImageAsset.create doc 0 = Some (Image ["1x"; "a.png"] 0) /\
    ImageAsset.processSource P 0 params "1x" doc = Ok (file, doc') /\
    getAttribute doc 0 "srcset" = Some "a.png 1x, 1x 2x" /\
    getAttribute doc' 0 "srcset" = Some ("a.png " +:+ target +:+ ", 1x 2x").
Proof.
  intros doc file target Hread Hplain.
  assert (Hsrc : getAttribute doc 0 "src" = Some "1x")
    by (vm_compute; reflexivity).
  assert (Hset : getAttribute (setAttribute doc 0 "src" target) 0 "srcset" =
                 Some "a.png 1x, 1x 2x").
  { rewrite getAttribute_setAttribute_other by (right; discriminate).
    vm_compute; reflexivity. }
  assert (Hrepl : Js.replace "a.png 1x, 1x 2x" "1x" target =
                  "a.png " +:+ target +:+ ", 1x 2x").
  { apply (replace_first "a.png 1x, 1x 2x" "1x" target "a.png " ", 1x 2x");
      [reflexivity | exact Hplain]. }
  exists (setAttribute (setAttribute doc 0 "src" target) 0 "srcset"
            ("a.png " +:+ target +:+ ", 1x 2x")).
  split; [vm_compute; reflexivity|]. split; [|split; [vm_compute; reflexivity|]].
  - rewrite processSource_eq, Hread. cbv zeta. rewrite Hsrc.
    rewrite matches_plain by reflexivity.
    change (Js.matchAnywhere "1x" "1x") with true.
    fold file. fold target. unfold srcsetRewritten. rewrite Hset.
    change (Js.includes "a.png 1x, 1x 2x" "1x") with true.
    now rewrite Hrepl.
  - apply getAttribute_setAttribute. unfold setAttribute.
    rewrite list_lookup_alter_eq. now eexists.
Qed.

End ImageRewriting.

(** ** The generation cycle *)

Section Cycle.
Context (P : Platform).

Lemma createFileObject_lastModified (a : Asset)
  (params : CreateFileObjectParams) (doc doc' : Document) (files : list File) :
  createFileObject P a params doc = Ok (files, doc') ->
  Forall (fun file => lastModified file = 0%Z) files.
Proof.
  destruct a as [href el|href el|src el|sources el]; simpl.
  - rewrite css_createFileObject.
    destruct (readFile P _); [|discriminate]. cbv zeta.
    intros [= <- _]. now repeat constructor.
  - rewrite scss_createFileObject.
    destruct (readFile P _); [|discriminate]. cbv zeta.
    destruct (compileSass P _); [|discriminate].
    intros [= <- _]. now repeat constructor.
  - rewrite script_createFileObject.
    destruct (bundleByEsbuild P _); [|discriminate]. cbv zeta.
    intros [= <- _]. now repeat constructor.
  - intros H. apply image_createFileObject in H.
    induction H as [|src file sources files (data & _ & ->) _ IH];
      constructor; [reflexivity | exact IH].
Qed.

Lemma produces_lastModified (params : CreateFileObjectParams)
  (assets : list Asset) (doc doc' : Document) (groups : list (list File)) :
  produces P params assets doc groups doc' ->
  Forall (fun file => lastModified file = 0%Z) (List.concat groups).
Proof.
  induction 1 as [|a rest doc doc' doc'' files groups Hfirst _ IH]; simpl.
  - constructor.
  - apply Forall_app. split; [|exact IH].
    eapply createFileObject_lastModified, Hfirst.
Qed.

Lemma yieldAssetFiles_produces (params : CreateFileObjectParams)
  (assets : list Asset) (doc doc' : Document) (acc files : list File) :
  yieldAssetFiles P params assets doc acc = (files, Ok doc') <->
  exists groups,
    produces P params assets doc groups doc' /\
    files = acc ++ List.concat groups.
Proof.
  revert doc acc; induction assets as [|a rest IH]; intros doc acc; simpl.
  - split.
    + intros [= <- <-]. exists []. split; [constructor | now rewrite app_nil_r].
    + intros (groups & H & ->). inversion H; subst. simpl.
      now rewrite app_nil_r.
  - destruct (createFileObject P a params doc) as [[produced doc1]|e] eqn:E.
    + rewrite IH. split.
      * intros (groups & H & ->). exists (produced :: groups).
        split; [econstructor; eassumption | simpl; now rewrite app_assoc].
      * intros (groups & H & ->). inversion H; subst.
        match goal with
        | H1 : createFileObject P a params doc = Ok _ |- _ =>
            rewrite E in H1; injection H1 as <- <-
        end.
        eexists. split; [eassumption | simpl; now rewrite app_assoc].
    + split; [discriminate|].
      intros (groups & H & _). inversion H; subst. congruence.
Qed.

Lemma yieldAssetFiles_thrown (params : CreateFileObjectParams)
  (assets : list Asset) (doc : Document) (acc : list File) :
  (exists files e, yieldAssetFiles P params assets doc acc = (files, Throw e)) \/
  (exists files doc', yieldAssetFiles P params assets doc acc = (files, Ok doc')).
Proof.
  destruct (yieldAssetFiles P params assets doc acc) as [files [doc'|e]]; eauto.
Qed.

(** The file of the entry document, on the document [doc]. *)
Lemma html_createFileObject (h : HtmlAsset.t) (doc : Document)
  (params : CreateFileObjectParams) :
  HtmlAsset.createFileObject P (HtmlAsset.withDoc h doc) params =
  [mkFile (HtmlAsset.filename h)
     (encode "<!DOCTYPE html>" ++ encode (outerHTML P doc)) "text/html" 0].
Proof.
  unfold HtmlAsset.createFileObject, newFile. simpl.
  now rewrite app_nil_r.
Qed.

(** A generator whose assets all produce their files returns; what it has
    yielded then is written out here. *)
Lemma consume_returns (g : Generator) (groups : list (list File))
  (doc' : Document) :
  produces P (params g) (assets g) (HtmlAsset.doc (htmlAsset g)) groups doc' ->
  let html :=
    mkFile (HtmlAsset.filename (htmlAsset g))
      (encode "<!DOCTYPE html>" ++ encode (outerHTML P doc')) "text/html" 0 in
  consume P g =
  mkRun
    (List.concat groups ++ html ::
     (if fallback404 g
      then [newFile P [ArrayBuffer (content html)] "404" (spreadFile html)]
      else []))
    None.
Proof.
  intros H html. unfold consume.
  assert (E : yieldAssetFiles P (params g) (assets g)
                (HtmlAsset.doc (htmlAsset g)) [] =
              (List.concat groups, Ok doc')).
  { apply yieldAssetFiles_produces. exists groups. now split. }
  rewrite E, html_createFileObject. fold html.
  destruct (fallback404 g); [rewrite <- app_assoc|]; reflexivity.
Qed.

Lemma consume_produces (g : Generator) :
  thrown (consume P g) = None ->
  exists groups doc',
    produces P (params g) (assets g) (HtmlAsset.doc (htmlAsset g)) groups doc'.
Proof.
  unfold consume.
  destruct (yieldAssetFiles P (params g) (assets g)
              (HtmlAsset.doc (htmlAsset g)) []) as [files [doc'|e]] eqn:E.
  - intros _. apply yieldAssetFiles_produces in E as (groups & H & _). eauto.
  - discriminate.
Qed.

(** C3.  A cycle that returns has yielded, in this order: the files of the
    discovered assets, asset after asset; the file of the entry document,
    whose bytes are [<!DOCTYPE html>] followed by the serialized document as
    the assets left it; and, when the fallback is asked for, one more file
    named [404] with the same bytes.  And the cycle does return whenever
    every asset produces its files. *)
Theorem generation_order (g : Generator) :
  (thrown (consume P g) = None ->
   exists groups doc' html tail,
     produces P (params g) (assets g) (HtmlAsset.doc (htmlAsset g))
       groups doc' /\
     yielded (consume P g) = List.concat groups ++ html :: tail /\
     name html = HtmlAsset.filename (htmlAsset g) /\
     content html = encode "<!DOCTYPE html>" ++ encode (outerHTML P doc') /\
     (fallback404 g = false -> tail = []) /\
     (fallback404 g = true ->
      exists fallback,
        tail = [fallback] /\ name fallback = "404" /\
        content fallback = content html)) /\
  (forall groups doc',
     produces P (params g) (assets g) (HtmlAsset.doc (htmlAsset g))
       groups doc' ->
     thrown (consume P g) = None).
Proof.
  split.
  - intros Hret. destruct (consume_produces g Hret) as (groups & doc' & H).
    pose proof (consume_returns g groups doc' H) as E. cbv zeta in E.
    rewrite E. simpl. do 4 eexists.
    split; [exact H|]. split; [reflexivity|]. split; [reflexivity|].
    split; [reflexivity|]. split.
    + now intros ->.
    + intros ->. eexists. split; [reflexivity|]. split; [reflexivity|].
      unfold newFile. simpl. now rewrite app_nil_r.
  - intros groups doc' H. now rewrite (consume_returns g groups doc' H).
Qed.

(** C2.  Every file of the assets and the file of the entry document carry
    the time stamp 0; the fallback does not.  Its options are the spread of
    the html file, which holds no [lastModified], so the [File] constructor
    stamps it with the clock. *)
Theorem fallback404_timestamp (g : Generator) :
  fallback404 g = true ->
  thrown (consume P g) = None ->
  exists others fallback,
    yielded (consume P g) = others ++ [fallback] /\
    Forall (fun file => lastModified file = 0%Z) others /\
    name fallback = "404" /\
    lastModified fallback = now P.
Proof.
  intros Hfb Hret. destruct (consume_produces g Hret) as (groups & doc' & H).
  pose proof (consume_returns g groups doc' H) as E. cbv zeta in E.
  rewrite E, Hfb. simpl.
  eexists (List.concat groups ++ [_]), _.
  split; [now rewrite <- app_assoc|]. split; [|split; reflexivity].
  apply Forall_app. split; [eapply produces_lastModified, H|].
  now repeat constructor.
Qed.

(** The generator [generateAssets] returns: its assets are those discovered
    in the parsed entrypoint, before the livereload script is inserted; its
    document is that one, with the script appended when asked for. *)
Lemma generateAssets_generator (path : string) (opts : GenerateAssetsOptions)
  (g : Generator) (watch : list string) :
  generateAssets P path opts = Ok (g, watch) ->
  exists bytes h,
    readFile P path = Some bytes /\
    HtmlAsset.new P (decode P bytes) path = Ok h /\
    assets g = extractReferencedAssets (HtmlAsset.doc h) /\
    params g =
      mkParams (HtmlAsset.pageName h) (HtmlAsset.base h)
        (if Js.truthy (publicUrl opts) then publicUrl opts else ".") /\
    fallback404 g = mainAs404 opts /\
    HtmlAsset.filename (htmlAsset g) = basename P path /\
    exists extra, HtmlAsset.doc (htmlAsset g) = HtmlAsset.doc h ++ extra.
Proof.
  unfold generateAssets. rewrite create_new.
  destruct (readFile P path) as [bytes|]; [|discriminate].
  destruct (HtmlAsset.new P (decode P bytes) path) as [h|e] eqn:E;
    [|discriminate].
  intros H. exists bytes, h. split; [reflexivity|]. split; [exact E|].
  assert (Hname : HtmlAsset.filename h = basename P path).
  { unfold HtmlAsset.new in E.
    destruct (negb (Js.endsWith _ _)); [discriminate|].
    destruct (negb (Js.truthy _)); [discriminate|]. now injection E as <-. }
  destruct (insertLivereloadScript opts), (watchPaths opts);
    repeat match type of H with
           | context [allWatchPaths ?Q ?l ?b] =>
               destruct (allWatchPaths Q l b); [|discriminate]
           end;
    injection H as <- _; cbn [assets params fallback404 htmlAsset];
    (repeat split; [exact Hname|]);
    first [ now eexists | exists []; now rewrite app_nil_r ].
Qed.

End Cycle.

(** ** The theorems on the sample site *)

Section OnTheSampleSite.

Example sample_generateAssets :
  generateAssets Sample.world "site/index.html" Sample.options =
  Ok (Sample.generator, ["site/index.html"]).
Proof. vm_compute. reflexivity. Qed.

Lemma read_bytes_hashed_as_text_witness :
  exists file doc',
    createFileObject Sample.styled (Css "style.css" 0) Sample.parameters
      Sample.styledPage = Ok ([file], doc') /\
    content file = encode "a{b:c}" /\
    name file = "index." +:+ toHashString (encode "97,123,98,58,99,125") +:+
                ".css" /\
    name file <> "index." +:+ toHashString (encode "a{b:c}") +:+ ".css".
Proof.
  destruct (proj1 (proj2 (read_bytes_hashed_as_text Sample.styled
                            Sample.parameters))
              "style.css" 0 Sample.styledPage (encode "a{b:c}") eq_refl)
    as (file & doc' & Hrun & Hcontent & Hname & Hdiff).
  exists file, doc'. split; [exact Hrun|]. split; [exact Hcontent|].
  split; [exact Hname|]. apply Hdiff. vm_compute. discriminate.
Defined.

Lemma fallback404_timestamp_witness :
  exists others fallback,
    yielded (consume Sample.world Sample.generator) = others ++ [fallback] /\
    Forall (fun file => lastModified file = 0%Z) others /\
    name fallback = "404" /\
    lastModified fallback = 1700000000000%Z.
Proof.
  apply (fallback404_timestamp Sample.world Sample.generator);
    [reflexivity | vm_compute; reflexivity].
Defined.

Lemma generation_order_witness :
  exists groups doc' html tail,
    produces Sample.world Sample.parameters
      [Script "main.ts" 1; Scss "style.scss" 0; Image ["photo"; "a.png"] 2]
      Sample.page groups doc' /\
    yielded (consume Sample.world Sample.generator) =
      List.concat groups ++ html :: tail /\
    name html = "index.html" /\
    content html =
      encode "<!DOCTYPE html>" ++ encode (outerHTML Sample.world doc') /\
    (true = false -> tail = []) /\
    (true = true ->
     exists fallback,
       tail = [fallback] /\ name fallback = "404" /\
       content fallback = content html).
Proof.
  apply (proj1 (generation_order Sample.world Sample.generator)).
  vm_compute. reflexivity.
Defined.

Lemma remote_src_overwritten_witness :
  let doc := [Sample.element "IMG"
                [("src", "http://x/a.png"); ("srcset", "a.png 1x")]] in
  exists file doc',
    ImageAsset.create doc 0 = Some (Image ["a.png"] 0) /\
    createFileObject Sample.world (Image ["a.png"] 0) Sample.parameters doc =
      Ok ([file], doc') /\
    getAttribute doc 0 "src" = Some "http://x/a.png" /\
    getAttribute doc' 0 "src" =
      Some (posixPathJoin Sample.world "." (name file)).
Proof.
  apply (remote_src_overwritten Sample.world Sample.parameters [x03]%byte).
  reflexivity.
Defined.

Lemma srcset_descriptor_overwritten_witness :
  let doc := [Sample.element "IMG"
                [("src", "1x"); ("srcset", "a.png 1x, 1x 2x")]] in
  exists doc',
    ImageAsset.create doc 0 = Some (Image ["1x"; "a.png"] 0) /\
    ImageAsset.processSource Sample.world 0 Sample.parameters "1x" doc =
      Ok (imageFile Sample.world Sample.parameters "1x" [x04]%byte, doc') /\
    getAttribute doc 0 "srcset" = Some "a.png 1x, 1x 2x" /\
    getAttribute doc' 0 "srcset" = Some "a.png ./index.34.undefined, 1x 2x".
Proof.
  apply (srcset_descriptor_overwritten Sample.world Sample.parameters
           [x04]%byte); reflexivity.
Defined.

Lemma scss_artifact_witness :
  exists file doc',
    createFileObject Sample.world (Scss "style.scss" 0) Sample.parameters
      Sample.page = Ok ([file], doc') /\
    name file =
      "index." +:+
      md5 Sample.world (Uint8Array (list_byte_of_string "a{b:c}")) +:+ ".css" /\
    content file = list_byte_of_string "a{b:c}" /\
    type file = "text/css" /\
    doc' = setAttribute Sample.page 0 "href"
             (posixPathJoin Sample.world "." (name file)) /\
    (is_Some (Sample.page !! 0) ->
     getAttribute doc' 0 "href" =
     Some (posixPathJoin Sample.world "." (name file))).
Proof.
  apply (scss_artifact Sample.world "style.scss" 0 Sample.parameters
           Sample.page (list_byte_of_string "a{b:c}") (Text "a{b:c}"));
    reflexivity.
Defined.

Lemma entry_document_construction_witness :
  HtmlAsset.new Sample.world "<html></html>" "site/index.html" =
  Ok (HtmlAsset.mk Sample.page "site/index.html" "site" "index.html" "index").
Proof.
  apply (proj2 (entry_document_construction Sample.world "<html></html>"
                  "site/index.html") "index");
    [reflexivity | discriminate].
Defined.


End OnTheSampleSite.

(** * Further properties of the code *)

(** ** util.ts: entrypoints, sizes and digests *)

Section UtilFacts.

Lemma size_list_to_set_le (l : list string) :
  size (list_to_set l : gset string) <= length l.
Proof.
  induction l as [|x l IH].
  - rewrite list_to_set_nil, size_empty. reflexivity.
  - rewrite list_to_set_cons. cbn [length].
    etransitivity; [apply Nat.eq_le_incl, size_union_alt|].
    rewrite size_singleton.
    assert (size (list_to_set l ∖ {[x]} : gset string) <=
            size (list_to_set l : gset string))
      by apply subseteq_size, subseteq_difference_l, reflexivity.
    lia.
Qed.

Lemma size_list_to_set_NoDup (l : list string) :
  size (list_to_set l : gset string) = length l <-> NoDup l.
Proof.
  split; [|apply size_list_to_set].
  induction l as [|x l IH]; [constructor|].
  rewrite list_to_set_cons. cbn [length]. intros H.
  assert (Hx : x ∉ l).
  { intros Hin.
    assert (E : ({[x]} ∪ list_to_set l : gset string) = list_to_set l).
    { apply subseteq_union_1_L, singleton_subseteq_l.
      now apply elem_of_list_to_set. }
    rewrite E in H. pose proof (size_list_to_set_le l). lia. }
  constructor; [exact Hx|]. apply IH.
  rewrite size_union in H
    by (apply disjoint_singleton_l; now rewrite elem_of_list_to_set).
  rewrite size_singleton in H. lia.
Qed.

(** X1.  [checkUniqueEntrypoints] returns exactly when the base names of the
    paths are pairwise distinct, and throws [Duplicate basenames] otherwise:
    two entrypoints of different directories with the same file name are
    refused, and so is one path given twice. *)
Theorem checkUniqueEntrypoints_NoDup (P : Platform) (paths : list string) :
  (checkUniqueEntrypoints P paths = Returns <->
   NoDup (map (basename P) paths)) /\
  (checkUniqueEntrypoints P paths = ThrowsError "Duplicate basenames" <->
   ~ NoDup (map (basename P) paths)).
Proof.
  unfold checkUniqueEntrypoints.
  rewrite <- size_list_to_set_NoDup, length_map.
  destruct (bool_decide _) eqn:E.
  - apply bool_decide_eq_true in E. split; split; try discriminate; tauto.
  - apply bool_decide_eq_false in E.
    assert (size (list_to_set (map (basename P) paths) : gset string) =
            length paths)
      by (destruct (decide (size (list_to_set (map (basename P) paths)
                                    : gset string) = length paths)); tauto).
    split; split; try discriminate; tauto.
Qed.

Lemma nearest_quotient (n unit : N) :
  (0 < unit)%N -> nearestHundredths ((200 * n + unit) / (2 * unit)) n unit.
Proof.
  intros Hu. unfold nearestHundredths.
  pose proof (N.div_mod (200 * n + unit) (2 * unit) ltac:(lia)) as E.
  pose proof (N.mod_lt (200 * n + unit) (2 * unit) ltac:(lia)) as L.
  set (q := ((200 * n + unit) / (2 * unit))%N) in *.
  set (r := ((200 * n + unit) mod (2 * unit))%N) in *.
  clearbody q r. nia.
Qed.

(** X2.  [byteSize] prints a size of at most 1024 as it is, with the unit
    [B] (1024 itself is [1024B]); above 1024 and up to 2^20 it prints
    kilobytes, above 2^20 megabytes.  The number printed in [KB] or [MB] is
    the size divided by the unit, rounded to the nearest hundredth (a tie
    goes up); it is never below 1.00, and in [KB] never above 1024.00. *)
Theorem byteSize_unit_and_rounding (n : N) :
  ((n <= KB)%N -> byteSize n = Js.decimal n +:+ "B") /\
  ((KB < n <= MB)%N ->
   exists h, byteSize n = printHundredths h +:+ "KB" /\
             (100 <= h <= 102400)%N /\ nearestHundredths h n KB) /\
  ((MB < n)%N ->
   exists h, byteSize n = printHundredths h +:+ "MB" /\
             (100 <= h)%N /\ nearestHundredths h n MB).
Proof.
  unfold byteSize, toFixed2.
  assert (HKB : KB = 1024%N) by reflexivity.
  assert (HMB : MB = 1048576%N) by reflexivity.
  repeat split.
  - intros H. destruct (N.ltb_spec MB n); [lia|].
    destruct (N.ltb_spec KB n); [lia | reflexivity].
  - intros [H1 H2]. destruct (N.ltb_spec MB n); [lia|].
    destruct (N.ltb_spec KB n); [|lia].
    exists ((200 * n + KB) / (2 * KB))%N.
    pose proof (nearest_quotient n KB ltac:(lia)) as Hn.
    split; [reflexivity|]. split; [|exact Hn].
    unfold nearestHundredths in Hn. lia.
  - intros H. destruct (N.ltb_spec MB n); [|lia].
    exists ((200 * n + MB) / (2 * MB))%N.
    pose proof (nearest_quotient n MB ltac:(lia)) as Hn.
    split; [reflexivity|]. split; [|exact Hn].
    unfold nearestHundredths in Hn. lia.
Qed.

End UtilFacts.

(** ** The digest and the names *)

Section Digests.
Context (P : Platform).

Lemma toHashString_shape (h : list byte) :
  String.length (toHashString h) = 2 * length h /\
  allHex (toHashString h) = true.
Proof.
  induction h as [|x h [IHl IHh]]; [split; reflexivity|].
  rewrite toHashString_cons.
  destruct (hexByte_shape x) as (c & d & -> & Hc & Hd & _).
  rewrite !append_cons, append_nil_l. cbn [String.length allHex length].
  rewrite IHl, IHh, Hc, Hd. split; [lia | reflexivity].
Qed.

(** X3.  [md5] returns the digest in lower-case hexadecimal, two digits for
    each byte, and loses nothing of it: two data have the same [md5] exactly
    when the digest primitive gives the same bytes for what is hashed of
    them. *)
Theorem md5_hexadecimal (data data' : Data) :
  String.length (md5 P data) = 2 * length (digestMD5 P (hashedBytes data)) /\
  allHex (md5 P data) = true /\
  (md5 P data = md5 P data' <->
   digestMD5 P (hashedBytes data) = digestMD5 P (hashedBytes data')).
Proof.
  change (md5 P data) with (toHashString (digestMD5 P (hashedBytes data))).
  change (md5 P data') with (toHashString (digestMD5 P (hashedBytes data'))).
  split; [apply toHashString_shape|]. split; [apply toHashString_shape|].
  split; [apply toHashString_inj | now intros ->].
Qed.

(** X4.  Two content-addressed files of one page and one extension have the
    same name exactly when their data have the same digest: a change of the
    digest always changes the name. *)
Theorem same_name_same_digest (params : CreateFileObjectParams)
  (extension : string) (data data' : Data) (file file' : File) :
  contentAddressed P params extension data file ->
  contentAddressed P params extension data' file' ->
  (name file = name file' <->
   digestMD5 P (hashedBytes data) = digestMD5 P (hashedBytes data')).
Proof.
  intros [-> _] [-> _]. split.
  - intros H. apply String.app_inj, String.app_inj, append_inj_r in H.
    now apply toHashString_inj.
  - intros H. unfold md5. fold (hashedBytes data). fold (hashedBytes data').
    now rewrite H.
Qed.

(** X18.  The files a Stylesheet, Script or Image asset produces hold their
    data and are named [pageName.h.ext], where [h] is what [md5] returns for
    the data; and a second build that sees the same file contents, the same
    bundles and the same digests gives its files the same names, whatever
    the state of its document, its path prefix and its clock. *)
Theorem content_addressed_names (a : Asset) (params : CreateFileObjectParams)
  (doc doc' : Document) (files : list File) :
  createFileObject P a params doc = Ok (files, doc') ->
  addressed P params a files /\
  (forall (Q : Platform) (params' : CreateFileObjectParams)
     (doc2 doc2' : Document) (files2 : list File),
     sameInputs P Q ->
     pageName params' = pageName params ->
     base params' = base params ->
     createFileObject Q a params' doc2 = Ok (files2, doc2') ->
     map name files2 = map name files).
Proof.
  intros H. split; [eapply createFileObject_addressed, H|].
  intros Q params' doc2 doc2' files2 HPQ Hpage Hbase H2.
  eapply createFileObject_names; eassumption.
Qed.

End Digests.

(** ** Discovery, once more *)

Section DiscoveryFacts.

Lemma addAll_spec (set sources : list string) :
  NoDup set ->
  NoDup (ImageAsset.addAll set sources) /\
  (forall x, x ∈ ImageAsset.addAll set sources <-> x ∈ set \/ x ∈ sources) /\
  exists more, ImageAsset.addAll set sources = set ++ more.
Proof.
  revert set; induction sources as [|s rest IH]; intros set Hset; simpl.
  - split; [assumption|]. split; [|exists []; now rewrite app_nil_r].
    intros x. rewrite elem_of_nil. tauto.
  - destruct (existsb (String.eqb s) set) eqn:E.
    + apply existsb_exists in E as (y & Hy & Heq).
      apply String.eqb_eq in Heq. subst y. apply list_elem_of_In in Hy.
      destruct (IH set Hset) as (Hnd & Hmem & Hpre).
      split; [assumption|]. split; [|assumption].
      intros x. rewrite Hmem, elem_of_cons. split; [tauto|].
      intros [H|[->|H]]; tauto.
    + assert (Hs : s ∉ set).
      { intros Hin. apply list_elem_of_In in Hin.
        assert (existsb (String.eqb s) set = true)
          by (apply existsb_exists; exists s; split;
              [assumption | apply String.eqb_refl]).
        congruence. }
      assert (Hset' : NoDup (set ++ [s])).
      { apply NoDup_app. split; [assumption|]. split.
        - intros x Hx Hx'. apply list_elem_of_singleton in Hx'. now subst.
        - apply NoDup_singleton. }
      destruct (IH (set ++ [s]) Hset') as (Hnd & Hmem & more & Hpre).
      split; [assumption|]. split.
      * intros x. rewrite Hmem, elem_of_app, !elem_of_cons, elem_of_nil. tauto.
      * exists (s :: more). rewrite Hpre. now rewrite <- app_assoc.
Qed.

Lemma removeDuplicates_spec (sources : list string) :
  NoDup (ImageAsset.removeDuplicates sources) /\
  (forall x, x ∈ ImageAsset.removeDuplicates sources <-> x ∈ sources).
Proof.
  destruct (addAll_spec [] sources (NoDup_nil_2)) as (H1 & H2 & _).
  split; [exact H1|]. intros x. unfold ImageAsset.removeDuplicates.
  rewrite H2, elem_of_nil. tauto.
Qed.

Lemma srcsetSources_local (srcset : string) :
  Forall (fun s => isLocalUrl s = true) (ImageAsset.srcsetSources srcset).
Proof.
  unfold ImageAsset.srcsetSources. apply Forall_forall. intros x Hx.
  apply list_elem_of_In, filter_In in Hx. tauto.
Qed.

Lemma localSources_elem (doc : Document) (el : nat) (s : string) :
  s ∈ localSources doc el <->
  (getAttribute doc el "src" = Some s /\ s <> "" /\ isLocalUrl s = true) \/
  (exists srcset,
     getAttribute doc el "srcset" = Some srcset /\
     s ∈ ImageAsset.srcsetSources srcset).
Proof.
  unfold localSources.
  rewrite (proj2 (removeDuplicates_spec _)), elem_of_app.
  split; (intros [H|H]; [left|right]); revert H.
  - destruct (getAttribute doc el "src") as [src|]; [|now intros ?%elem_of_nil].
    destruct (Js.truthy src && isLocalUrl src) eqn:E;
      [|now intros ?%elem_of_nil].
    apply andb_true_iff in E as [T Lc]. apply truthy_true in T.
    intros ->%list_elem_of_singleton. tauto.
  - destruct (getAttribute doc el "srcset") as [srcset|];
      [eauto | now intros ?%elem_of_nil].
  - intros (-> & Hne & Lc). apply truthy_true in Hne.
    rewrite Hne, Lc. simpl. now apply list_elem_of_singleton.
  - intros (srcset & -> & H). exact H.
Qed.

Lemma localSources_local (doc : Document) (el : nat) :
  Forall (fun s => isLocalUrl s = true) (localSources doc el).
Proof.
  apply Forall_forall. intros s Hs.
  apply localSources_elem in Hs as [(_ & _ & H)|(srcset & _ & H)].
  - exact H.
  - pose proof (srcsetSources_local srcset) as F.
    rewrite Forall_forall in F. now apply F.
Qed.

(** An Image asset is made of the local sources of its node, and there is
    at least one. *)
Lemma image_create_local (doc : Document) (el : nat) (a : Asset) :
  ImageAsset.create doc el = Some a ->
  a = Image (localSources doc el) el /\ localSources doc el <> [].
Proof.
  rewrite create_sources.
  destruct (_ && _); [discriminate|].
  destruct (length (localSources doc el) =? 0)%nat eqn:L; [discriminate|].
  intros [= <-]. split; [reflexivity|]. intros E. rewrite E in L. discriminate.
Qed.

(** X5.  The sources of an Image asset are never empty, hold no duplicate
    and no external reference, and are exactly: the [src] of the node when it
    is non-empty and local, and the local URLs of its [srcset]. *)
Theorem image_asset_sources (doc : Document) (el : nat) (a : Asset) :
  ImageAsset.create doc el = Some a ->
  exists sources,
    a = Image sources el /\
    sources <> [] /\
    NoDup sources /\
    Forall (fun s => isLocalUrl s = true) sources /\
    (forall s,
       s ∈ sources <->
       (getAttribute doc el "src" = Some s /\ s <> "" /\ isLocalUrl s = true) \/
       (exists srcset,
          getAttribute doc el "srcset" = Some srcset /\
          s ∈ ImageAsset.srcsetSources srcset)).
Proof.
  intros H. apply image_create_local in H as [-> Hne].
  exists (localSources doc el).
  split; [reflexivity|]. split; [exact Hne|].
  split; [apply removeDuplicates_spec|].
  split; [apply localSources_local|].
  apply localSources_elem.
Qed.

End DiscoveryFacts.

Section DiscoveredAssets.

Lemma script_create_inv (doc : Document) (n : nat) (a : Asset) :
  ScriptAsset.create doc n = Some a ->
  exists src,
    a = Script src n /\ getAttribute doc n "src" = Some src /\
    src <> "" /\ isLocalUrl src = true.
Proof.
  unfold ScriptAsset.create.
  destruct (getAttribute doc n "src") as [src|]; [|discriminate].
  destruct (Js.truthy src) eqn:T; [|discriminate]. cbn [negb].
  destruct (_ || _) eqn:L; [discriminate|].
  intros [= <-]. exists src. apply truthy_true in T.
  unfold isLocalUrl. rewrite L. now repeat split.
Qed.

Lemma stylesheet_create_inv (doc : Document) (n : nat) (a : Asset) :
  CssAsset.create doc n = Some a ->
  exists href,
    (a = Css href n \/ a = Scss href n) /\
    getAttribute doc n "href" = Some href /\
    getAttribute doc n "rel" = Some "stylesheet" /\
    href <> "" /\ isLocalUrl href = true.
Proof.
  intros H. destruct (stylesheet_variant doc n a H) as (href & Hh & Hr & ->).
  exists href. unfold CssAsset.create in H. rewrite Hh in H.
  destruct (negb (bool_decide _)); [discriminate|].
  destruct (Js.truthy href) eqn:T; [|discriminate]. cbn [negb] in H.
  destruct (_ || _) eqn:L; [discriminate|]. apply truthy_true in T.
  unfold isLocalUrl. rewrite orb_comm, L.
  destruct (Js.endsWith href ".scss"); repeat split; auto.
Qed.

Lemma selected_in_document (doc : Document) (query : string) (n : nat) :
  n ∈ qs doc query -> n < length doc.
Proof.
  intros H. apply qs_elem in H. unfold tagNameOf in H.
  destruct (doc !! n) eqn:E; [|discriminate]. eapply lookup_lt_Some, E.
Qed.

Lemma yielded_asset (create : nat -> option Asset) (nodes : list nat)
  (a : Asset) :
  (forall n b, create n = Some b -> elementOf b = n) ->
  a ∈ yieldAssets create nodes ->
  elementOf a ∈ nodes /\ create (elementOf a) = Some a.
Proof.
  intros Hh Ha. pose proof (yieldAssets_from create Hh nodes) as F.
  rewrite Forall_forall in F. now apply F.
Qed.

(** A discovered asset belongs to a node of the document. *)
Lemma discovered_handle_bound (doc : Document) (a : Asset) :
  a ∈ extractReferencedAssets doc -> elementOf a < length doc.
Proof.
  unfold extractReferencedAssets, extractReferencedScripts,
    extractReferencedStyleSheets, extractReferencedImages.
  rewrite !elem_of_app. intros [H|[H|H]].
  - apply yielded_asset in H as [Hin _];
      [|intros n b E; apply (script_handle doc n b E)].
    eapply selected_in_document, Hin.
  - apply yielded_asset in H as [Hin _];
      [|intros n b E; apply (stylesheet_handle doc n b E)].
    eapply selected_in_document, Hin.
  - apply yielded_asset in H as [Hin _];
      [|intros n b E; apply (image_handle doc n b E)].
    apply elem_of_app in Hin as [Hin|Hin]; eapply selected_in_document, Hin.
Qed.

(** X6.  Every discovered asset belongs to a node of the document and
    refers to local files only: no reference starts with [http://] or
    [https://]; a script carries the non-empty [src] of its node, a
    stylesheet the non-empty [href] of its node, whose [rel] is
    [stylesheet]. *)
Theorem discovered_assets_local (doc : Document) (a : Asset) :
  a ∈ extractReferencedAssets doc ->
  elementOf a < length doc /\
  references a <> [] /\
  Forall (fun r => isLocalUrl r = true) (references a) /\
  match a with
  | Script src el => src <> "" /\ getAttribute doc el "src" = Some src
  | Css href el | Scss href el =>
      href <> "" /\ getAttribute doc el "href" = Some href /\
      getAttribute doc el "rel" = Some "stylesheet"
  | Image _ _ => True
  end.
Proof.
  unfold extractReferencedAssets, extractReferencedScripts,
    extractReferencedStyleSheets, extractReferencedImages.
  rewrite !elem_of_app. intros [H|[H|H]].
  - apply yielded_asset in H as [Hin Hc];
      [|intros n b E; apply (script_handle doc n b E)].
    apply selected_in_document in Hin. split; [exact Hin|].
    apply script_create_inv in Hc as (src & -> & Hs & Hne & Hl).
    simpl in *. repeat split; try assumption; [discriminate|].
    now repeat constructor.
  - apply yielded_asset in H as [Hin Hc];
      [|intros n b E; apply (stylesheet_handle doc n b E)].
    apply selected_in_document in Hin. split; [exact Hin|].
    apply stylesheet_create_inv in Hc as (href & Ha & Hh & Hrel & Hne & Hl).
    destruct Ha as [-> | ->]; simpl in *;
      (split; [discriminate|]); (split; [now repeat constructor|]);
      now repeat split.
  - apply yielded_asset in H as [Hin Hc];
      [|intros n b E; apply (image_handle doc n b E)].
    apply elem_of_app in Hin as [Hin|Hin]; apply selected_in_document in Hin;
      (split; [exact Hin|]);
      apply image_create_local in Hc as [-> Hne];
      (split; [exact Hne|]); (split; [apply localSources_local | exact I]).
Qed.

End DiscoveredAssets.

Section Livereload.

Lemma selectFrom_snoc (i : nat) (doc : Document) (e : Element) (tag : string) :
  selectFrom i (doc ++ [e]) tag =
  selectFrom i doc tag ++
  (if String.eqb (tagName e) tag then [i + length doc] else []).
Proof.
  revert i; induction doc as [|d doc IH]; intros i; simpl.
  - rewrite Nat.add_0_r. now destruct (String.eqb (tagName e) tag).
  - rewrite IH. replace (S i + length doc) with (i + S (length doc)) by lia.
    now destruct (String.eqb (tagName d) tag).
Qed.

Lemma getAttribute_app (doc extra : Document) (el : nat) (attr : string) :
  el < length doc ->
  getAttribute (doc ++ extra) el attr = getAttribute doc el attr.
Proof. intros H. unfold getAttribute. now rewrite lookup_app_l. Qed.

Lemma tagNameOf_app (doc extra : Document) (el : nat) :
  el < length doc -> tagNameOf (doc ++ extra) el = tagNameOf doc el.
Proof. intros H. unfold tagNameOf. now rewrite lookup_app_l. Qed.

Lemma script_create_app (doc extra : Document) (el : nat) :
  el < length doc ->
  ScriptAsset.create (doc ++ extra) el = ScriptAsset.create doc el.
Proof. intros H. unfold ScriptAsset.create. now rewrite getAttribute_app. Qed.

Lemma stylesheet_create_app (doc extra : Document) (el : nat) :
  el < length doc ->
  CssAsset.create (doc ++ extra) el = CssAsset.create doc el.
Proof. intros H. unfold CssAsset.create. now rewrite !getAttribute_app. Qed.

Lemma image_create_app (doc extra : Document) (el : nat) :
  el < length doc ->
  ImageAsset.create (doc ++ extra) el = ImageAsset.create doc el.
Proof.
  intros H. unfold ImageAsset.create.
  now rewrite !getAttribute_app, tagNameOf_app.
Qed.

Lemma yieldAssets_ext (create create' : nat -> option Asset)
  (nodes : list nat) :
  Forall (fun n => create n = create' n) nodes ->
  yieldAssets create nodes = yieldAssets create' nodes.
Proof.
  induction 1 as [|n nodes Hn _ IH]; simpl; [reflexivity|].
  rewrite Hn, IH. reflexivity.
Qed.

Lemma yieldAssets_selected (create create' : nat -> option Asset)
  (doc : Document) (query : string) :
  (forall el, el < length doc -> create el = create' el) ->
  yieldAssets create (qs doc query) = yieldAssets create' (qs doc query).
Proof.
  intros H. apply yieldAssets_ext, Forall_forall. intros n Hn.
  eapply H, selected_in_document, Hn.
Qed.

(** X7.  A script element with an external [src], appended to the document,
    changes nothing to what is discovered: neither the new element becomes an
    asset (so the livereload script is never bundled), nor do the handles of
    the other assets move. *)
Theorem remote_script_not_discovered (doc : Document) (src : string) :
  isLocalUrl src = false ->
  extractReferencedAssets (HtmlAsset.insertScriptTag doc src) =
  extractReferencedAssets doc.
Proof.
  intros Hremote.
  unfold extractReferencedAssets, extractReferencedScripts,
    extractReferencedStyleSheets, extractReferencedImages,
    HtmlAsset.insertScriptTag, qs, querySelectorAll.
  rewrite !selectFrom_snoc. cbn [tagName].
  change (String.eqb "SCRIPT" (toUpperCase "script")) with true.
  change (String.eqb "SCRIPT" (toUpperCase "link")) with false.
  change (String.eqb "SCRIPT" (toUpperCase "img")) with false.
  change (String.eqb "SCRIPT" (toUpperCase "source")) with false.
  rewrite !app_nil_r, yieldAssets_app. cbn [yieldAssets].
  assert (Hnew : ScriptAsset.create
                   (doc ++ [mkElement "SCRIPT" {[ "src" := src ]}])
                   (0 + length doc) = None).
  { unfold ScriptAsset.create, getAttribute.
    rewrite lookup_app_r by lia.
    replace (0 + length doc - length doc) with 0 by lia. cbn [lookup list_lookup attributes].
    rewrite lookup_singleton_eq.
    destruct (negb (Js.truthy src)); [reflexivity|].
    unfold isLocalUrl in Hremote. apply negb_false_iff in Hremote.
    now rewrite Hremote. }
  rewrite Hnew, app_nil_r.
  f_equal; [|f_equal].
  - apply (yieldAssets_selected _ _ doc "script"). intros el Hel.
    now apply script_create_app.
  - apply (yieldAssets_selected _ _ doc "link"). intros el Hel.
    now apply stylesheet_create_app.
  - fold (querySelectorAll doc "img"). fold (querySelectorAll doc "source").
    fold (qs doc "img"). fold (qs doc "source").
    rewrite !yieldAssets_app. f_equal.
    + apply (yieldAssets_selected _ _ doc "img"). intros el Hel.
      now apply image_create_app.
    + apply (yieldAssets_selected _ _ doc "source"). intros el Hel.
      now apply image_create_app.
Qed.

End Livereload.

Section Frame.
Context (P : Platform).

Lemma onlyWrites_refl (el : nat) (attrs : list string) (doc : Document) :
  onlyWrites el attrs doc doc.
Proof. now repeat split. Qed.

Lemma onlyWrites_trans (el : nat) (attrs : list string)
  (doc1 doc2 doc3 : Document) :
  onlyWrites el attrs doc1 doc2 -> onlyWrites el attrs doc2 doc3 ->
  onlyWrites el attrs doc1 doc3.
Proof.
  intros (L1 & O1 & T1 & A1) (L2 & O2 & T2 & A2). repeat split.
  - congruence.
  - intros el' H. now rewrite O2, O1.
  - intros el'. now rewrite T2, T1.
  - intros el' attr H. now rewrite A2, A1.
Qed.

Lemma onlyWrites_setAttribute (el : nat) (attrs : list string)
  (doc : Document) (attr value : string) :
  attr ∈ attrs -> onlyWrites el attrs doc (setAttribute doc el attr value).
Proof.
  intros Hin. repeat split.
  - unfold setAttribute. apply length_alter.
  - intros el' H. unfold setAttribute. now apply list_lookup_alter_ne.
  - intros el'. apply tagNameOf_setAttribute.
  - intros el' attr' H. apply getAttribute_setAttribute_other.
    right. intros ->. contradiction.
Qed.

Lemma srcsetRewritten_frame (doc : Document) (el : nat) (src target : string) :
  onlyWrites el ["src"; "srcset"] doc (srcsetRewritten doc el src target).
Proof.
  unfold srcsetRewritten.
  destruct (getAttribute doc el "srcset") as [srcset|];
    [|apply onlyWrites_refl].
  destruct (Js.includes srcset src); [|apply onlyWrites_refl].
  apply onlyWrites_setAttribute. repeat constructor.
Qed.

Lemma processSource_frame (el : nat) (params : CreateFileObjectParams)
  (src : string) (doc doc' : Document) (file : File) :
  ImageAsset.processSource P el params src doc = Ok (file, doc') ->
  onlyWrites el ["src"; "srcset"] doc doc'.
Proof.
  rewrite processSource_eq.
  destruct (readFile P _) as [data|]; [|discriminate]. cbv zeta.
  destruct (getAttribute doc el "src") as [a|].
  - destruct (Js.matches _ a src) as [[|]|]; [| |discriminate]; intros [= _ <-].
    + eapply onlyWrites_trans; [|apply srcsetRewritten_frame].
      apply onlyWrites_setAttribute. repeat constructor.
    + apply srcsetRewritten_frame.
  - intros [= _ <-]. apply srcsetRewritten_frame.
Qed.

Lemma loop_frame (el : nat) (params : CreateFileObjectParams)
  (sources : list string) (acc files : list File) (doc doc' : Document) :
  ImageAsset.loop P el params sources acc doc = Ok (files, doc') ->
  onlyWrites el ["src"; "srcset"] doc doc'.
Proof.
  revert acc doc; induction sources as [|src sources IH]; intros acc doc.
  - simpl. intros [= _ <-]. apply onlyWrites_refl.
  - cbn [ImageAsset.loop]. intros H.
    apply bind_Ok in H as (file & doc1 & Hstep & Hrest).
    eapply onlyWrites_trans;
      [eapply processSource_frame, Hstep | eapply IH, Hrest].
Qed.

Lemma onlyWrites_elsewhere (el : nat) (attrs : list string)
  (doc doc' : Document) :
  onlyWrites el attrs doc doc' ->
  length doc' = length doc /\
  (forall el', el' <> el -> doc' !! el' = doc !! el') /\
  (forall el', tagNameOf doc' el' = tagNameOf doc el').
Proof. intros (L & O & T & _). now repeat split. Qed.

(** The production of an asset leaves every node but its own as it is. *)
Lemma createFileObject_elsewhere (a : Asset) (params : CreateFileObjectParams)
  (doc doc' : Document) (files : list File) :
  createFileObject P a params doc = Ok (files, doc') ->
  length doc' = length doc /\
  (forall el', el' <> elementOf a -> doc' !! el' = doc !! el') /\
  (forall el', tagNameOf doc' el' = tagNameOf doc el').
Proof.
  destruct a as [href el|href el|src el|sources el]; simpl; intros E.
  - apply (onlyWrites_elsewhere el ["href"]).
    rewrite css_createFileObject in E.
    destruct (readFile P _); [|discriminate]. injection E as _ <-.
    apply onlyWrites_setAttribute. repeat constructor.
  - apply (onlyWrites_elsewhere el ["href"]).
    rewrite scss_createFileObject in E.
    destruct (readFile P _); [|discriminate]. cbv zeta in E.
    destruct (compileSass P _); [|discriminate]. injection E as _ <-.
    apply onlyWrites_setAttribute. repeat constructor.
  - apply (onlyWrites_elsewhere el ["src"]).
    rewrite script_createFileObject in E.
    destruct (bundleByEsbuild P _); [|discriminate]. injection E as _ <-.
    apply onlyWrites_setAttribute. repeat constructor.
  - apply (onlyWrites_elsewhere el ["src"; "srcset"]).
    eapply loop_frame, E.
Qed.

Lemma produces_frame (params : CreateFileObjectParams) (assets : list Asset)
  (doc doc' : Document) (groups : list (list File)) :
  produces P params assets doc groups doc' ->
  length doc' = length doc /\
  (forall el, tagNameOf doc' el = tagNameOf doc el) /\
  (forall el, (forall a, a ∈ assets -> elementOf a <> el) ->
              doc' !! el = doc !! el).
Proof.
  induction 1 as [|a rest doc doc' doc'' files groups Hfirst _ IH].
  - now repeat split.
  - destruct IH as (L & T & O).
    apply createFileObject_elsewhere in Hfirst as (L1 & O1 & T1).
    repeat split.
    + congruence.
    + intros el. now rewrite T, T1.
    + intros el H. rewrite O, O1; [reflexivity| |].
      * intros E. apply (H a); [apply elem_of_cons; now left | now symmetry].
      * intros b Hb. apply H. apply elem_of_cons. now right.
Qed.

(** X8.  Producing the files of an asset changes the document in one
    place only: the node of the asset, and there only [href] (stylesheets),
    [src] (scripts) or [src] and [srcset] (images).  The number of nodes, the
    tag names, every other node and every other attribute stay as they
    were. *)
Theorem production_frame (a : Asset) (params : CreateFileObjectParams)
  (doc doc' : Document) (files : list File) :
  createFileObject P a params doc = Ok (files, doc') ->
  onlyWrites (elementOf a) (writtenAttributes a) doc doc'.
Proof.
  destruct a as [href el|href el|src el|sources el]; simpl.
  - rewrite css_createFileObject.
    destruct (readFile P _); [|discriminate]. cbv zeta. intros [= _ <-].
    apply onlyWrites_setAttribute. repeat constructor.
  - rewrite scss_createFileObject.
    destruct (readFile P _); [|discriminate]. cbv zeta.
    destruct (compileSass P _); [|discriminate]. intros [= _ <-].
    apply onlyWrites_setAttribute. repeat constructor.
  - rewrite script_createFileObject.
    destruct (bundleByEsbuild P _); [|discriminate]. cbv zeta. intros [= _ <-].
    apply onlyWrites_setAttribute. repeat constructor.
  - apply loop_frame.
Qed.

End Frame.

Section Nodes.

Lemma sorted_NoDup (l : list nat) : StronglySorted lt l -> NoDup l.
Proof.
  induction 1 as [|n l _ IH Hlt]; constructor; [|exact IH].
  intros Hin. rewrite Forall_forall in Hlt. specialize (Hlt n Hin). lia.
Qed.

Lemma scan_handles (doc : Document) (tag : string) (kind : Kind)
  (create : nat -> option Asset) (group : list Asset) :
  scanOf doc tag kind create group ->
  NoDup (map elementOf group) /\
  (forall n, n ∈ map elementOf group -> tagNameOf doc n = Some tag).
Proof.
  intros (Hsorted & Hall & _). split; [now apply sorted_NoDup|].
  intros n Hn. apply list_elem_of_In, in_map_iff in Hn as (a & <- & Ha).
  rewrite Forall_forall in Hall. apply list_elem_of_In in Ha.
  now apply Hall in Ha.
Qed.

Lemma NoDup_app_tagged (doc : Document) (tag1 : string) (l1 l2 : list nat) :
  NoDup l1 -> NoDup l2 ->
  (forall n, n ∈ l1 -> tagNameOf doc n = Some tag1) ->
  (forall n, n ∈ l2 -> tagNameOf doc n <> Some tag1) ->
  NoDup (l1 ++ l2).
Proof.
  intros H1 H2 T1 T2. apply NoDup_app. split; [exact H1|]. split; [|exact H2].
  intros n Hn Hn'. now apply (T2 n Hn'), T1.
Qed.

(** X9.  No two discovered assets share a node: the handles of the assets
    are pairwise distinct, so no node is rewritten by two assets. *)
Theorem discovered_nodes_distinct (doc : Document) :
  NoDup (map elementOf (extractReferencedAssets doc)).
Proof.
  unfold extractReferencedAssets, extractReferencedScripts,
    extractReferencedStyleSheets, extractReferencedImages.
  rewrite yieldAssets_app, !map_app.
  destruct (scan_handles _ _ _ _ _
              (scan_yield doc "script" ScriptKind _ (script_handle doc)))
    as [N1 T1].
  destruct (scan_handles _ _ _ _ _
              (scan_yield doc "link" StylesheetKind _ (stylesheet_handle doc)))
    as [N2 T2].
  destruct (scan_handles _ _ _ _ _
              (scan_yield doc "img" ImageKind _ (image_handle doc)))
    as [N3 T3].
  destruct (scan_handles _ _ _ _ _
              (scan_yield doc "source" ImageKind _ (image_handle doc)))
    as [N4 T4].
  apply (NoDup_app_tagged doc "SCRIPT"); [exact N1| |exact T1|].
  - apply (NoDup_app_tagged doc "LINK"); [exact N2| |exact T2|].
    + apply (NoDup_app_tagged doc "IMG"); [exact N3|exact N4|exact T3|].
      intros n Hn. rewrite (T4 n Hn). discriminate.
    + intros n Hn. apply elem_of_app in Hn as [Hn|Hn];
        [rewrite (T3 n Hn) | rewrite (T4 n Hn)]; discriminate.
  - intros n Hn. apply elem_of_app in Hn as [Hn|Hn];
      [rewrite (T2 n Hn); discriminate|].
    apply elem_of_app in Hn as [Hn|Hn];
      [rewrite (T3 n Hn) | rewrite (T4 n Hn)]; discriminate.
Qed.

End Nodes.

Section FinalDocument.
Context (P : Platform).

Lemma refersTo_after (params : CreateFileObjectParams) (a : Asset)
  (doc doc' : Document) (files : list File) :
  elementOf a < length doc ->
  createFileObject P a params doc = Ok (files, doc') ->
  refersTo P params doc' a files.
Proof.
  intros Hel.
  assert (Hnode : is_Some (doc !! elementOf a)) by now apply lookup_lt_is_Some.
  destruct a as [href el|href el|src el|sources el]; simpl in *.
  - rewrite css_createFileObject.
    destruct (readFile P _); [|discriminate]. cbv zeta. intros [= <- <-].
    eexists. split; [reflexivity|]. split; [reflexivity|].
    now apply getAttribute_setAttribute.
  - rewrite scss_createFileObject.
    destruct (readFile P _); [|discriminate]. cbv zeta.
    destruct (compileSass P _); [|discriminate]. intros [= <- <-].
    eexists. split; [reflexivity|]. split; [reflexivity|].
    now apply getAttribute_setAttribute.
  - rewrite script_createFileObject.
    destruct (bundleByEsbuild P _); [|discriminate]. cbv zeta. intros [= <- <-].
    eexists. split; [reflexivity|]. split; [reflexivity|].
    now apply getAttribute_setAttribute.
  - trivial.
Qed.

Lemma refersTo_kept (params : CreateFileObjectParams) (a : Asset)
  (doc doc' : Document) (files : list File) :
  doc' !! elementOf a = doc !! elementOf a ->
  refersTo P params doc a files -> refersTo P params doc' a files.
Proof.
  intros E. unfold refersTo, getAttribute.
  destruct a as [href el|href el|src el|sources el]; simpl in E;
    now rewrite ?E.
Qed.

(** X10.  When all the assets, of pairwise distinct nodes of the document,
    have produced their files, the document refers to those files: the
    [href] of every stylesheet node and the [src] of every script node is the
    joined path prefix and name of the one file the asset produced, and no
    later asset has undone it. *)
Theorem references_in_final_document (params : CreateFileObjectParams)
  (assets : list Asset) (doc doc' : Document) (groups : list (list File)) :
  produces P params assets doc groups doc' ->
  NoDup (map elementOf assets) ->
  Forall (fun a => elementOf a < length doc) assets ->
  Forall2 (refersTo P params doc') assets groups.
Proof.
  induction 1 as [|a rest doc doc1 doc2 files groups Hfirst Hrest IH];
    intros Hnd Hlt; [constructor|].
  apply NoDup_cons in Hnd as [Hfresh Hnd].
  apply Forall_cons in Hlt as [Ha Hlt].
  pose proof (createFileObject_elsewhere P _ _ _ _ _ Hfirst) as (L1 & _).
  constructor.
  - apply (refersTo_kept params a doc1 doc2).
    + apply (produces_frame P _ _ _ _ _ Hrest).
      intros b Hb Heq. apply Hfresh. rewrite <- Heq.
      apply list_elem_of_In, in_map, list_elem_of_In, Hb.
    + now apply (refersTo_after params a doc doc1).
  - apply IH; [exact Hnd|].
    eapply Forall_impl; [exact Hlt|]. simpl. intros b Hb. now rewrite L1.
Qed.

End FinalDocument.

(** ** File names *)

Section Names.
Context (P : Platform).

Lemma allWord_dot (s e : string) : Js.allWord (s +:+ "." +:+ e) = false.
Proof.
  induction s as [|c s IH].
  - reflexivity.
  - rewrite append_cons. cbn [Js.allWord]. rewrite IH. apply andb_false_r.
Qed.

Lemma matchExtension_append (s e : string) :
  e <> "" -> Js.allWord e = true ->
  Js.matchExtension (s +:+ "." +:+ e) = Some e.
Proof.
  intros Hne Hw. apply truthy_true in Hne.
  induction s as [|c s IH].
  - change ("" +:+ "." +:+ e) with (String "." e).
    cbn [Js.matchExtension]. now rewrite Ascii.eqb_refl, Hne, Hw.
  - rewrite append_cons. cbn [Js.matchExtension].
    rewrite allWord_dot, andb_false_r. exact IH.
Qed.

Lemma matchExtension_word (s e : string) :
  Js.matchExtension s = Some e -> e <> "" /\ Js.allWord e = true.
Proof.
  induction s as [|c s IH]; [discriminate|]. cbn [Js.matchExtension].
  destruct (Ascii.eqb c "." && Js.truthy s && Js.allWord s) eqn:E;
    [|exact IH].
  intros [= <-]. apply andb_true_iff in E as [E Hw].
  apply andb_true_iff in E as [_ T]. apply truthy_true in T. now split.
Qed.

Lemma interpolated_extension_word (src : string) :
  Js.interpolate (Js.matchExtension src) <> "" /\
  Js.allWord (Js.interpolate (Js.matchExtension src)) = true.
Proof.
  destruct (Js.matchExtension src) as [e|] eqn:E; simpl.
  - eapply matchExtension_word, E.
  - split; [discriminate | reflexivity].
Qed.

Lemma named_extension (page hashed e : string) :
  e <> "" -> Js.allWord e = true ->
  Js.matchExtension (page +:+ "." +:+ hashed +:+ "." +:+ e) = Some e.
Proof.
  intros Hne Hw.
  replace (page +:+ "." +:+ hashed +:+ "." +:+ e)
    with ((page +:+ "." +:+ hashed) +:+ "." +:+ e)
    by (now rewrite !append_assoc).
  now apply matchExtension_append.
Qed.

(** X11.  The name of every produced file ends in an extension that the
    extension pattern of the image loop reads back: [css] for both kinds of
    stylesheet, [js] for a script, and for an image the extension of its
    source, or the word [undefined] when the source has none. *)
Theorem output_extension (a : Asset) (params : CreateFileObjectParams)
  (doc doc' : Document) (files : list File) :
  createFileObject P a params doc = Ok (files, doc') ->
  match a with
  | Css _ _ | Scss _ _ =>
      Forall (fun file => Js.matchExtension (name file) = Some "css") files
  | Script _ _ =>
      Forall (fun file => Js.matchExtension (name file) = Some "js") files
  | Image sources _ =>
      Forall2
        (fun src file =>
           Js.matchExtension (name file) =
           Some (Js.interpolate (Js.matchExtension src)))
        sources files
  end.
Proof.
  destruct a as [href el|href el|src el|sources el]; simpl.
  - rewrite css_createFileObject.
    destruct (readFile P _); [|discriminate]. cbv zeta. intros [= <- _].
    repeat constructor. now apply named_extension.
  - rewrite scss_createFileObject.
    destruct (readFile P _); [|discriminate]. cbv zeta.
    destruct (compileSass P _); [|discriminate]. intros [= <- _].
    repeat constructor. now apply named_extension.
  - rewrite script_createFileObject.
    destruct (bundleByEsbuild P _); [|discriminate]. cbv zeta. intros [= <- _].
    repeat constructor. now apply named_extension.
  - intros H. apply image_createFileObject in H.
    eapply Forall2_impl; [exact H|]. simpl.
    intros src file (data & _ & ->). unfold imageFile. cbn [name].
    apply named_extension; apply interpolated_extension_word.
Qed.

End Names.

(** ** The attributes of an image, in the usual cases *)

Section ImageRewritingFacts.
Context (P : Platform).

Lemma startsWith_matchHere (a p : string) :
  Js.startsWith a p = true -> Js.matchHere p a = true.
Proof.
  revert a; induction p as [|b p IH]; intros a; [reflexivity|].
  destruct a as [|x a]; [discriminate|]. cbn [Js.startsWith Js.matchHere].
  intros H. apply andb_true_iff in H as [Hx Hp].
  apply Ascii.eqb_eq in Hx. subst x. rewrite (IH _ Hp), andb_true_r.
  unfold Js.atomMatches. destruct (Ascii.eqb b ".") eqn:E.
  - apply Ascii.eqb_eq in E. now subst b.
  - apply Ascii.eqb_refl.
Qed.

Lemma includes_matchAnywhere (a p : string) :
  Js.includes a p = true -> Js.matchAnywhere p a = true.
Proof.
  induction a as [|x a IH]; cbn [Js.includes Js.matchAnywhere];
    rewrite !orb_true_iff.
  - intros [H|H]; [left; now apply startsWith_matchHere | discriminate].
  - intros [H|H]; [left; now apply startsWith_matchHere | right; now apply IH].
Qed.

Lemma includes_refl (s : string) : Js.includes s s = true.
Proof.
  assert (H : Js.startsWith s s = true).
  { rewrite <- (append_nil_r s) at 1. apply startsWith_append. }
  destruct s; cbn [Js.includes]; now rewrite H.
Qed.

Lemma getAttribute_srcsetRewritten (doc : Document) (el : nat)
  (src target : string) :
  getAttribute (srcsetRewritten doc el src target) el "src" =
  getAttribute doc el "src".
Proof.
  unfold srcsetRewritten.
  destruct (getAttribute doc el "srcset") as [srcset|]; [|reflexivity].
  destruct (Js.includes srcset src); [|reflexivity].
  apply getAttribute_setAttribute_other. right. discriminate.
Qed.

(** X12.  For a source that is an ordinary path (no regular expression
    syntax character), the image loop rewrites [src] whenever the [src]
    attribute contains the source, in particular when it is the source: the
    attribute becomes the joined path prefix and name of the new file. *)
Theorem src_rewritten_when_contained (el : nat)
  (params : CreateFileObjectParams) (src a : string) (data : list byte)
  (doc : Document) :
  Js.hasSyntaxChar src = false ->
  getAttribute doc el "src" = Some a ->
  Js.includes a src = true ->
  readFile P (join P (base params) src) = Some data ->
  exists doc',
    ImageAsset.processSource P el params src doc =
      Ok (imageFile P params src data, doc') /\
    getAttribute doc' el "src" =
      Some (posixPathJoin P (pathPrefix params)
              (name (imageFile P params src data))).
Proof.
  intros Hplain Hattr Hin Hread.
  rewrite processSource_eq, Hread. cbv zeta. rewrite Hattr.
  rewrite (matches_plain _ _ _ Hplain), (includes_matchAnywhere _ _ Hin).
  eexists. split; [reflexivity|].
  rewrite getAttribute_srcsetRewritten. apply getAttribute_setAttribute.
  unfold getAttribute in Hattr. destruct (doc !! el); [eauto | discriminate].
Qed.

Lemma processSource_srcset (el : nat) (params : CreateFileObjectParams)
  (src : string) (data : list byte) (doc : Document) :
  Js.hasSyntaxChar src = false ->
  readFile P (join P (base params) src) = Some data ->
  let target :=
    posixPathJoin P (pathPrefix params) (name (imageFile P params src data)) in
  exists doc1,
    getAttribute doc1 el "srcset" = getAttribute doc el "srcset" /\
    (is_Some (doc !! el) -> is_Some (doc1 !! el)) /\
    ImageAsset.processSource P el params src doc =
      Ok (imageFile P params src data, srcsetRewritten doc1 el src target).
Proof.
  intros Hplain Hread target.
  rewrite processSource_eq, Hread. cbv zeta. fold target.
  destruct (getAttribute doc el "src") as [a|].
  - rewrite (matches_plain _ _ _ Hplain).
    destruct (Js.matchAnywhere src a).
    + exists (setAttribute doc el "src" target). split; [|split; [|reflexivity]].
      * apply getAttribute_setAttribute_other. right. discriminate.
      * unfold setAttribute. rewrite list_lookup_alter_eq.
        intros [e ->]. now eexists.
    + exists doc. now repeat split.
  - exists doc. now repeat split.
Qed.

(** X13.  For a source that is an ordinary path, the image loop leaves a
    [srcset] without the source as it is; otherwise it rewrites the first
    place where the source occurs, and when the new reference holds no
    dollar sign the text before and after that place is kept unchanged. *)
Theorem srcset_first_occurrence (el : nat) (params : CreateFileObjectParams)
  (src srcset : string) (data : list byte) (doc : Document) :
  Js.hasSyntaxChar src = false ->
  readFile P (join P (base params) src) = Some data ->
  getAttribute doc el "srcset" = Some srcset ->
  let file := imageFile P params src data in
  let target := posixPathJoin P (pathPrefix params) (name file) in
  exists doc',
    ImageAsset.processSource P el params src doc = Ok (file, doc') /\
    match Js.search srcset src with
    | None => getAttribute doc' el "srcset" = Some srcset
    | Some (pre, post) =>
        srcset = pre +:+ src +:+ post /\
        (forall a b, pre = a +:+ b -> b <> "" ->
                     Js.startsWith (b +:+ src +:+ post) src = false) /\
        (Js.occursIn "$" target = false ->
         getAttribute doc' el "srcset" = Some (pre +:+ target +:+ post))
    end.
Proof.
  intros Hplain Hread Hattr file target.
  destruct (processSource_srcset el params src data doc Hplain Hread)
    as (doc1 & Hsame & Hnode & Hrun).
  fold file target in Hrun. rewrite Hattr in Hsame.
  eexists. split; [exact Hrun|].
  assert (Hel : is_Some (doc1 !! el)).
  { apply Hnode. unfold getAttribute in Hattr.
    destruct (doc !! el); [eauto | discriminate]. }
  unfold srcsetRewritten. rewrite Hsame.
  destruct (Js.search srcset src) as [[pre post]|] eqn:E.
  - assert (Hin : Js.includes srcset src = true)
      by (apply includes_search; eauto).
    rewrite Hin. split; [now apply search_sound|].
    split; [now apply (search_first srcset src pre post)|].
    intros Hdollar. rewrite getAttribute_setAttribute by exact Hel.
    f_equal. now apply replace_first.
  - assert (Hin : Js.includes srcset src = false).
    { destruct (Js.includes srcset src) eqn:I; [|reflexivity].
      apply includes_search in I as (? & ? & ?). congruence. }
    now rewrite Hin.
Qed.

(** X19.  A source is searched for as a regular expression, so a source with
    a quantifier is not found in the attribute that spells it: on
    [<img src="a+b.png">] the pattern asks for one or more [a] followed by
    [b], the attribute has a plus sign there, and the loop makes the file and
    leaves the document as it was, [src] included. *)
Theorem quantified_source_not_rewritten (params : CreateFileObjectParams)
  (data : list byte) :
  let doc := [Sample.element "IMG" [("src", "a+b.png")]] in
  readFile P (join P (base params) "a+b.png") = Some data ->
  ImageAsset.create doc 0 = Some (Image ["a+b.png"] 0) /\
  createFileObject P (Image ["a+b.png"] 0) params doc =
    Ok ([imageFile P params "a+b.png" data], doc) /\
  getAttribute doc 0 "src" = Some "a+b.png".
Proof.
  intros doc Hread.
  assert (Hsrc : getAttribute doc 0 "src" = Some "a+b.png")
    by (vm_compute; reflexivity).
  assert (Hset : getAttribute doc 0 "srcset" = None)
    by (vm_compute; reflexivity).
  split; [vm_compute; reflexivity|]. split; [|exact Hsrc].
  simpl. unfold ImageAsset.createFileObject. cbn [ImageAsset.loop].
  unfold bind. rewrite processSource_eq, Hread. cbv zeta. rewrite Hsrc.
  change (Js.matches (regExpMatch P) "a+b.png" "a+b.png") with (Some false).
  unfold srcsetRewritten. now rewrite Hset.
Qed.

(** X20.  The body of the image loop throws in two cases only: the file of
    the source cannot be read, or the node has a [src] attribute and the
    source is not a regular expression. *)
Theorem image_loop_failures (el : nat) (params : CreateFileObjectParams)
  (src : string) (doc : Document) (e : Error) :
  ImageAsset.processSource P el params src doc = Throw e <->
  (readFile P (join P (base params) src) = None /\
   e = ReadFailed (join P (base params) src)) \/
  (exists data a,
     readFile P (join P (base params) src) = Some data /\
     getAttribute doc el "src" = Some a /\
     Js.matches (regExpMatch P) a src = None /\
     e = RegExpSyntaxError src).
Proof.
  rewrite processSource_eq.
  destruct (readFile P _) as [data|]; cbv zeta.
  - destruct (getAttribute doc el "src") as [a|].
    + destruct (Js.matches (regExpMatch P) a src) as [[|]|] eqn:E; split;
        try discriminate.
      * intros [[H _]|(? & ? & _ & [= <-] & H & _)]; [discriminate|].
        rewrite E in H. discriminate.
      * intros [[H _]|(? & ? & _ & [= <-] & H & _)]; [discriminate|].
        rewrite E in H. discriminate.
      * intros [= <-]. right. exists data, a. now repeat split.
      * intros [[H _]|(? & ? & _ & _ & _ & ->)]; [discriminate|reflexivity].
    + split; [discriminate|].
      intros [[H _]|(? & ? & _ & H & _)]; discriminate.
  - split.
    + intros [= <-]. now left.
    + intros [[_ ->]|(? & ? & H & _)]; [reflexivity|discriminate].
Qed.

End ImageRewritingFacts.

(** ** Reading a srcset *)

Section Srcset.

Lemma split_append (sep : ascii) (a b : string) :
  Js.occursIn sep a = false ->
  Js.split sep (a +:+ String sep b) = a :: Js.split sep b.
Proof.
  induction a as [|c a IH]; intros H.
  - rewrite append_nil_l. cbn [Js.split]. now rewrite Ascii.eqb_refl.
  - cbn [Js.occursIn] in H. apply orb_false_iff in H as [Hc Ha].
    rewrite append_cons. cbn [Js.split].
    rewrite Ascii.eqb_sym, Hc, (IH Ha). reflexivity.
Qed.

Lemma split_whole (sep : ascii) (a : string) :
  Js.occursIn sep a = false -> Js.split sep a = [a].
Proof.
  induction a as [|c a IH]; intros H; [reflexivity|].
  cbn [Js.occursIn] in H. apply orb_false_iff in H as [Hc Ha].
  cbn [Js.split]. rewrite Ascii.eqb_sym, Hc, (IH Ha). reflexivity.
Qed.

Lemma occursIn_append (c : ascii) (a b : string) :
  Js.occursIn c (a +:+ b) = Js.occursIn c a || Js.occursIn c b.
Proof.
  induction a as [|x a IH]; [reflexivity|].
  rewrite append_cons. cbn [Js.occursIn]. now rewrite IH, orb_assoc.
Qed.

Lemma candidate_no_comma (c : string * string) :
  wellFormedCandidate c -> Js.occursIn "," (candidate c) = false.
Proof.
  intros (_ & _ & Hu & Hd & _). unfold candidate.
  destruct (String.eqb (snd c) ""); [exact Hu|].
  rewrite !occursIn_append, Hu, Hd. reflexivity.
Qed.

Lemma split_formatted (lead : string) (c : string * string)
  (rest : list (string * string)) :
  Js.occursIn "," lead = false ->
  Forall wellFormedCandidate (c :: rest) ->
  Js.split "," (lead +:+ Js.join ", " (map candidate (c :: rest))) =
  (lead +:+ candidate c) :: map (fun d => " " +:+ candidate d) rest.
Proof.
  revert lead c; induction rest as [|d rest IH]; intros lead c Hlead Hall.
  - simpl. apply split_whole. rewrite occursIn_append, Hlead.
    apply candidate_no_comma. now apply Forall_inv in Hall.
  - apply Forall_cons in Hall as [Hc Hall].
    change (Js.join ", " (map candidate (c :: d :: rest)))
      with (candidate c +:+ ", " +:+ Js.join ", " (map candidate (d :: rest))).
    change (", " +:+ Js.join ", " (map candidate (d :: rest)))
      with (String "," (" " +:+ Js.join ", " (map candidate (d :: rest)))).
    rewrite <- append_assoc, split_append
      by (rewrite occursIn_append, Hlead; now apply candidate_no_comma).
    rewrite (IH " " d) by (reflexivity || assumption). reflexivity.
Qed.

Lemma noWhiteSpace_first (u rest : string) :
  u <> "" -> noWhiteSpace u = true -> Js.trimStart (u +:+ rest) = u +:+ rest.
Proof.
  destruct u as [|c u]; [contradiction|]. intros _ H.
  cbn [noWhiteSpace] in H. apply andb_true_iff in H as [Hc _].
  rewrite append_cons. cbn [Js.trimStart].
  apply negb_true_iff in Hc. now rewrite Hc.
Qed.

Lemma trimEnd_text (s : string) : endsInText s = true -> Js.trimEnd s = s.
Proof.
  induction s as [|c s IH]; [reflexivity|]. intros H. cbn [Js.trimEnd].
  destruct s as [|d s].
  - cbn [endsInText] in H. apply negb_true_iff in H.
    cbn [Js.trimEnd]. now rewrite H.
  - rewrite IH by exact H. cbn [String.eqb]. now rewrite andb_false_r.
Qed.

Lemma endsInText_append (a b : string) :
  b <> "" -> endsInText (a +:+ b) = endsInText b.
Proof.
  intros Hb. induction a as [|c a IH]; [reflexivity|].
  rewrite append_cons. cbn [endsInText]. rewrite IH.
  destruct (a +:+ b) eqn:E; [|reflexivity].
  destruct a, b; try contradiction; discriminate.
Qed.

Lemma noWhiteSpace_endsInText (u : string) :
  noWhiteSpace u = true -> endsInText u = true.
Proof.
  induction u as [|c u IH]; [reflexivity|]. cbn [noWhiteSpace endsInText].
  intros H. apply andb_true_iff in H as [Hc Hu].
  destruct u; [exact Hc | now apply IH].
Qed.

Lemma noWhiteSpace_no_space (u : string) :
  noWhiteSpace u = true -> Js.occursIn " " u = false.
Proof.
  induction u as [|c u IH]; [reflexivity|]. cbn [noWhiteSpace Js.occursIn].
  intros H. apply andb_true_iff in H as [Hc Hu]. rewrite (IH Hu), orb_false_r.
  destruct (Ascii.eqb " " c) eqn:E; [|reflexivity].
  apply Ascii.eqb_eq in E. subst c. discriminate.
Qed.

Lemma candidate_endsInText (c : string * string) :
  wellFormedCandidate c -> endsInText (candidate c) = true.
Proof.
  intros (_ & Hu & _ & _ & Hd). unfold candidate.
  destruct (String.eqb (snd c) "") eqn:E.
  - now apply noWhiteSpace_endsInText.
  - apply String.eqb_neq in E. rewrite <- append_assoc.
    now rewrite endsInText_append.
Qed.

Lemma candidate_starts (c : string * string) :
  exists rest, candidate c = fst c +:+ rest /\
               (rest = "" \/ exists r, rest = String " " r).
Proof.
  unfold candidate. destruct (String.eqb (snd c) "").
  - exists "". split; [now rewrite append_nil_r | now left].
  - exists (" " +:+ snd c). split; [reflexivity | right; now eexists].
Qed.

Lemma candidate_url (lead : string) (c : string * string) :
  wellFormedCandidate c -> lead = "" \/ lead = " " ->
  Js.truthy (lead +:+ candidate c) = true /\
  hd EmptyString (Js.split " " (Js.trim (lead +:+ candidate c))) = fst c.
Proof.
  intros Hwf Hlead. pose proof Hwf as (Hne & Hu & _).
  destruct (candidate_starts c) as (rest & Hc & Hrest).
  assert (Htrim : Js.trim (lead +:+ candidate c) = candidate c).
  { unfold Js.trim.
    assert (Js.trimStart (lead +:+ candidate c) = candidate c) as ->.
    { destruct Hlead as [-> | ->].
      - rewrite append_nil_l, Hc. now apply noWhiteSpace_first.
      - change (" " +:+ candidate c) with (String " " (candidate c)).
        cbn [Js.trimStart].
        change (Js.isWhiteSpace " ") with true. cbv iota.
        rewrite Hc. now apply noWhiteSpace_first. }
    apply trimEnd_text. now apply candidate_endsInText. }
  split.
  - apply truthy_true. rewrite Hc. destruct (fst c); [contradiction|].
    destruct Hlead as [-> | ->]; discriminate.
  - rewrite Htrim, Hc. destruct Hrest as [-> | (r & ->)].
    + rewrite append_nil_r, split_whole by now apply noWhiteSpace_no_space.
      reflexivity.
    + rewrite split_append by now apply noWhiteSpace_no_space. reflexivity.
Qed.

(** X14.  Reading back a [srcset] written the usual way (candidates joined
    by a comma and a space; each a URL without white space or comma, then
    optionally a space and a descriptor without comma) gives the URLs of the
    candidates in their order, the external ones left out. *)
Theorem srcsetSources_formatted (candidates : list (string * string)) :
  Forall wellFormedCandidate candidates ->
  ImageAsset.srcsetSources (formatSrcset candidates) =
  List.filter isLocalUrl (map fst candidates).
Proof.
  intros Hall. unfold ImageAsset.srcsetSources, formatSrcset.
  destruct candidates as [|c rest]; [reflexivity|].
  rewrite <- (append_nil_l (Js.join ", " (map candidate (c :: rest)))).
  rewrite split_formatted by (reflexivity || assumption).
  f_equal.
  apply Forall_cons in Hall as [Hc Hrest].
  destruct (candidate_url "" c Hc (or_introl eq_refl)) as [T U].
  cbn [List.filter map]. rewrite T. cbn [map hd]. rewrite U. f_equal.
  induction Hrest as [|d rest Hd _ IH]; [reflexivity|].
  destruct (candidate_url " " d Hd (or_intror eq_refl)) as [T' U'].
  cbn [List.filter map]. rewrite T'. cbn [map]. rewrite U'. now f_equal.
Qed.

End Srcset.

(** ** The cycle, once more *)

Section CycleFacts.
Context (P : Platform).

Lemma generateAssets_livereload (path : string) (opts : GenerateAssetsOptions)
  (g : Generator) (watch : list string) :
  generateAssets P path opts = Ok (g, watch) ->
  insertLivereloadScript opts = true ->
  exists h,
    assets g = extractReferencedAssets (HtmlAsset.doc h) /\
    HtmlAsset.doc (htmlAsset g) =
      HtmlAsset.doc h ++
      [mkElement "SCRIPT" {[ "src" := livereloadUrl (livereloadPort opts) ]}].
Proof.
  unfold generateAssets. intros H Hlr. rewrite Hlr in H.
  destruct (HtmlAsset.create P path) as [h|e]; [|discriminate].
  exists h.
  destruct (watchPaths opts);
    repeat match type of H with
           | context [allWatchPaths ?Q ?l ?b] =>
               destruct (allWatchPaths Q l b); [|discriminate]
           end;
    injection H as <- _; now split.
Qed.

(** X15.  In a build with the livereload script, the script element is the
    last element of the document and no asset belongs to it; once all the
    assets have produced their files it is still there, with its [src]
    [http://localhost:port/livereload.js] intact (the port prints as
    [undefined] when none is given). *)
Theorem livereload_script_survives (path : string)
  (opts : GenerateAssetsOptions) (g : Generator) (watch : list string)
  (groups : list (list File)) (doc' : Document) :
  generateAssets P path opts = Ok (g, watch) ->
  insertLivereloadScript opts = true ->
  produces P (params g) (assets g) (HtmlAsset.doc (htmlAsset g)) groups doc' ->
  List.last doc' (mkElement "" ∅) =
    mkElement "SCRIPT" {[ "src" := livereloadUrl (livereloadPort opts) ]} /\
  Forall (fun a => elementOf a < length doc' - 1) (assets g).
Proof.
  intros Hgen Hlr Hprod.
  destruct (generateAssets_livereload _ _ _ _ Hgen Hlr) as (h & Hassets & Hdoc).
  apply produces_frame in Hprod as (L & _ & O).
  rewrite Hdoc in L, O. rewrite length_app in L. simpl in L.
  assert (Hhandles : forall a, a ∈ assets g ->
                               elementOf a < length (HtmlAsset.doc h)).
  { intros a Ha. rewrite Hassets in Ha.
    now apply discovered_handle_bound in Ha. }
  split.
  - specialize (O (length (HtmlAsset.doc h))).
    rewrite lookup_app_r, Nat.sub_diag in O by lia. simpl in O.
    assert (E : doc' !! (length (HtmlAsset.doc h)) =
                Some (mkElement "SCRIPT"
                        {[ "src" := livereloadUrl (livereloadPort opts) ]})).
    { apply O. intros a Ha Heq. apply Hhandles in Ha. lia. }
    destruct (decide (doc' = [])) as [->|Hne]; [discriminate|].
    destruct (exists_last Hne) as (front & e & ->).
    rewrite length_app in L. simpl in L.
    rewrite List.last_last.
    rewrite lookup_app_r in E by lia.
    replace (length (HtmlAsset.doc h) - length front) with 0 in E by lia.
    now injection E.
  - apply Forall_forall. intros a Ha. apply Hhandles in Ha. lia.
Qed.

(** X16.  When the production of an asset throws, the generator throws the
    same error, having yielded the files of the assets before it and nothing
    else: neither the file of the entry document nor the fallback. *)
Theorem aborted_cycle (g : Generator) (before after : list Asset) (a : Asset)
  (groups : list (list File)) (doc1 : Document) (e : Error) :
  assets g = before ++ a :: after ->
  produces P (params g) before (HtmlAsset.doc (htmlAsset g)) groups doc1 ->
  createFileObject P a (params g) doc1 = Throw e ->
  consume P g = mkRun (List.concat groups) (Some e).
Proof.
  intros Ha Hprod Hthrow. unfold consume. rewrite Ha.
  assert (E : forall acc,
    yieldAssetFiles P (params g) (before ++ a :: after)
      (HtmlAsset.doc (htmlAsset g)) acc =
    (acc ++ List.concat groups, Throw e)).
  { clear Ha. induction Hprod as [doc|b rest doc doc' doc'' files groups Hb _ IH];
      intros acc; simpl.
    - rewrite Hthrow. now rewrite app_nil_r.
    - rewrite Hb, IH; [|assumption]. now rewrite app_assoc. }
  now rewrite E.
Qed.

Lemma allWatchPaths_Ok (assets : list Asset) (base : string)
  (paths : list string) :
  allWatchPaths P assets base = Ok paths <->
  exists lists,
    Forall2 (fun a ps => getWatchPaths P a base = Ok ps) assets lists /\
    paths = List.concat lists.
Proof.
  revert paths; induction assets as [|a rest IH]; intros paths; simpl.
  - split.
    + intros [= <-]. exists []. split; [constructor | reflexivity].
    + intros (lists & H & ->). inversion H. reflexivity.
  - destruct (getWatchPaths P a base) as [ps|e] eqn:E.
    + destruct (allWatchPaths P rest base) as [more|e'] eqn:E'.
      * split.
        -- intros [= <-]. destruct (proj1 (IH more) eq_refl) as (lists & H & ->).
           exists (ps :: lists). split; [now constructor | reflexivity].
        -- intros (lists & H & ->). inversion H as [|? ps' ? lists' Hps Hrest]; subst.
           rewrite E in Hps. injection Hps as <-.
           assert (Ok more = Ok (List.concat lists')) as [= ->]
             by (apply IH; eauto).
           reflexivity.
      * split; [discriminate|].
        intros (lists & H & ->). inversion H as [|? ps' ? lists' Hps Hrest]; subst.
        assert (Throw e' = Ok (List.concat lists')) by (apply IH; eauto).
        discriminate.
    + split; [discriminate|].
      intros (lists & H & ->). inversion H; subst. congruence.
Qed.

(** X17.  The watch list starts with the entrypoint.  Without
    [watchPaths] it holds nothing else and no dependency is queried; with it,
    it goes on with the watch paths of the discovered assets, asset after
    asset, and [generateAssets] succeeds only if every one of these queries
    does. *)
Theorem watch_list (path : string) (opts : GenerateAssetsOptions)
  (g : Generator) (watch : list string) :
  generateAssets P path opts = Ok (g, watch) ->
  (watchPaths opts = false -> watch = [path]) /\
  (watchPaths opts = true ->
   exists lists,
     Forall2 (fun a ps => getWatchPaths P a (base (params g)) = Ok ps)
       (assets g) lists /\
     watch = path :: List.concat lists).
Proof.
  unfold generateAssets.
  destruct (HtmlAsset.create P path) as [h|e]; [|discriminate].
  destruct (watchPaths opts).
  - match goal with
    | |- context [allWatchPaths ?Q ?l ?b] =>
        destruct (allWatchPaths Q l b) as [paths|e] eqn:E; [|discriminate]
    end.
    intros [= <- <-]. split; [discriminate|]. intros _.
    cbn [assets params base].
    apply allWatchPaths_Ok in E as (lists & H & ->).
    exists lists. split; [|reflexivity].
    now destruct (insertLivereloadScript opts).
  - intros [= <- <-]. split; [reflexivity | discriminate].
Qed.

End CycleFacts.

(** ** The further properties on the sample site *)

(** Settles a decidable goal by evaluating its decision procedure. *)
Ltac decided :=
  lazymatch goal with
  | |- ?G => apply (bool_decide_eq_true_1 G); vm_compute; reflexivity
  end.

Section FurtherOnTheSampleSite.

Example sample_live_generateAssets :
  generateAssets Sample.world "site/index.html" Sample.liveOptions =
  Ok (Sample.liveGenerator, ["site/index.html"]).
Proof. vm_compute. reflexivity. Qed.

Lemma checkUniqueEntrypoints_NoDup_witness :
  checkUniqueEntrypoints Sample.world ["a/index.html"; "b/about.html"] =
  Returns.
Proof.
  apply (proj1 (checkUniqueEntrypoints_NoDup Sample.world
                  ["a/index.html"; "b/about.html"])).
  decided.
Defined.

Lemma byteSize_unit_and_rounding_witness :
  exists h,
    byteSize 1700 = printHundredths h +:+ "KB" /\
    (100 <= h <= 102400)%N /\ nearestHundredths h 1700 KB.
Proof.
  apply (proj1 (proj2 (byteSize_unit_and_rounding 1700))).
  vm_compute. split; [reflexivity | discriminate].
Defined.

Lemma md5_hexadecimal_witness :
  String.length (md5 Sample.world (Text "ab")) = 4 /\
  allHex (md5 Sample.world (Text "ab")) = true /\
  (md5 Sample.world (Text "ab") =
   md5 Sample.world (ArrayBuffer [x61; x62]%byte) <->
   [x61; x62]%byte = [x61; x62]%byte).
Proof.
  exact (md5_hexadecimal Sample.world (Text "ab")
           (ArrayBuffer [x61; x62]%byte)).
Defined.

Lemma same_name_same_digest_witness :
  "index.31.css" = "index.312c32.css" <-> [x31]%byte = [x31; x2c; x32]%byte.
Proof.
  apply (same_name_same_digest Sample.world Sample.parameters "css"
           (Uint8Array [x01]%byte) (Uint8Array [x01; x02]%byte)
           (mkFile "index.31.css" [x01]%byte "text/css" 0)
           (mkFile "index.312c32.css" [x01; x02]%byte "text/css" 0));
    split; reflexivity.
Defined.

Lemma content_addressed_names_witness :
  match createFileObject Sample.world (Image ["photo"; "a.png"] 2)
          Sample.parameters Sample.page with
  | Ok (files, _) =>
      map name files = ["index.312c32.undefined"; "index.33.png"] /\
      addressed Sample.world Sample.parameters (Image ["photo"; "a.png"] 2) files
  | Throw _ => False
  end.
Proof.
  destruct (createFileObject Sample.world (Image ["photo"; "a.png"] 2)
              Sample.parameters Sample.page) as [[files doc']|e] eqn:E.
  - split.
    + vm_compute in E. injection E as <- _. reflexivity.
    + exact (proj1 (content_addressed_names Sample.world _ _ _ _ _ E)).
  - vm_compute in E. discriminate.
Defined.

Lemma image_asset_sources_witness :
  exists sources,
    Image ["photo"; "a.png"] 2 = Image sources 2 /\
    sources <> [] /\
    NoDup sources /\
    Forall (fun s => isLocalUrl s = true) sources /\
    (forall s,
       s ∈ sources <->
       (getAttribute Sample.page 2 "src" = Some s /\ s <> "" /\
        isLocalUrl s = true) \/
       (exists srcset,
          getAttribute Sample.page 2 "srcset" = Some srcset /\
          s ∈ ImageAsset.srcsetSources srcset)).
Proof.
  apply (image_asset_sources Sample.page 2). vm_compute. reflexivity.
Defined.

Lemma srcsetSources_formatted_witness :
  ImageAsset.srcsetSources "small.png 480w, http://cdn/big.png 2x, plain.png" =
  ["small.png"; "plain.png"].
Proof.
  apply (srcsetSources_formatted
           [("small.png", "480w"); ("http://cdn/big.png", "2x");
            ("plain.png", "")]).
  repeat constructor; discriminate.
Defined.

Lemma discovered_assets_local_witness :
  2 < length Sample.page /\
  ["photo"; "a.png"] <> [] /\
  Forall (fun r => isLocalUrl r = true) ["photo"; "a.png"] /\
  True.
Proof.
  apply (discovered_assets_local Sample.page (Image ["photo"; "a.png"] 2)).
  assert (E : extractReferencedAssets Sample.page =
              [Script "main.ts" 1; Scss "style.scss" 0;
               Image ["photo"; "a.png"] 2])
    by (vm_compute; reflexivity).
  rewrite E. repeat constructor.
Defined.

Lemma remote_script_not_discovered_witness :
  extractReferencedAssets
    (HtmlAsset.insertScriptTag Sample.page (livereloadUrl (Some 35729%N))) =
  extractReferencedAssets Sample.page.
Proof.
  apply (remote_script_not_discovered Sample.page
           (livereloadUrl (Some 35729%N))).
  reflexivity.
Defined.

Lemma production_frame_witness :
  match createFileObject Sample.world (Image ["photo"; "a.png"] 2)
          Sample.parameters Sample.page with
  | Ok (_, doc') => onlyWrites 2 ["src"; "srcset"] Sample.page doc'
  | Throw _ => False
  end.
Proof.
  destruct (createFileObject Sample.world (Image ["photo"; "a.png"] 2)
              Sample.parameters Sample.page) as [[files doc']|e] eqn:E.
  - exact (production_frame Sample.world _ _ _ _ _ E).
  - vm_compute in E. discriminate.
Defined.

Lemma output_extension_witness :
  match createFileObject Sample.world (Image ["photo"; "a.png"] 2)
          Sample.parameters Sample.page with
  | Ok (files, _) =>
      Forall2
        (fun src file =>
           Js.matchExtension (name file) =
           Some (Js.interpolate (Js.matchExtension src)))
        ["photo"; "a.png"] files
  | Throw _ => False
  end.
Proof.
  destruct (createFileObject Sample.world (Image ["photo"; "a.png"] 2)
              Sample.parameters Sample.page) as [[files doc']|e] eqn:E.
  - exact (output_extension Sample.world _ _ _ _ _ E).
  - vm_compute in E. discriminate.
Defined.

Lemma src_rewritten_when_contained_witness :
  exists doc',
    ImageAsset.processSource Sample.world 2 Sample.parameters "photo"
      Sample.page =
      Ok (imageFile Sample.world Sample.parameters "photo" [x01; x02]%byte,
          doc') /\
    getAttribute doc' 2 "src" = Some "./index.312c32.undefined".
Proof.
  apply (src_rewritten_when_contained Sample.world 2 Sample.parameters
           "photo" "photo" [x01; x02]%byte Sample.page); reflexivity.
Defined.

Lemma quantified_source_not_rewritten_witness :
  createFileObject Sample.album (Image ["a+b.png"] 0) Sample.parameters
    [Sample.element "IMG" [("src", "a+b.png")]] =
  Ok ([mkFile "index.33.png" [x03]%byte "image/png" 0],
      [Sample.element "IMG" [("src", "a+b.png")]]).
Proof.
  exact (proj1 (proj2 (quantified_source_not_rewritten Sample.album
                         Sample.parameters [x03]%byte eq_refl))).
Defined.

Lemma image_loop_failures_witness :
  ImageAsset.processSource Sample.album 0 Sample.parameters "a(b"
    Sample.unterminated = Throw (RegExpSyntaxError "a(b").
Proof.
  apply (proj2 (image_loop_failures Sample.album 0 Sample.parameters "a(b"
                  Sample.unterminated (RegExpSyntaxError "a(b"))).
  right. exists [x01]%byte, "a(b". repeat split.
Defined.

Lemma srcset_first_occurrence_witness :
  exists doc',
    ImageAsset.processSource Sample.world 2 Sample.parameters "a.png"
      Sample.page =
      Ok (imageFile Sample.world Sample.parameters "a.png" [x03]%byte, doc') /\
    "a.png 2x" = "" +:+ "a.png" +:+ " 2x" /\
    (forall a b, "" = a +:+ b -> b <> "" ->
                 Js.startsWith (b +:+ "a.png" +:+ " 2x") "a.png" = false) /\
    (Js.occursIn "$" "./index.33.png" = false ->
     getAttribute doc' 2 "srcset" = Some ("" +:+ "./index.33.png" +:+ " 2x")).
Proof.
  apply (srcset_first_occurrence Sample.world 2 Sample.parameters "a.png"
           "a.png 2x" [x03]%byte Sample.page); reflexivity.
Defined.

Lemma references_in_final_document_witness :
  exists groups doc',
    produces Sample.world Sample.parameters (assets Sample.generator)
      Sample.page groups doc' /\
    Forall2 (refersTo Sample.world Sample.parameters doc')
      (assets Sample.generator) groups.
Proof.
  destruct (consume_produces Sample.world Sample.generator
              ltac:(vm_compute; reflexivity)) as (groups & doc' & H).
  exists groups, doc'. split; [exact H|].
  apply (references_in_final_document Sample.world _ _ _ _ _ H);
    decided.
Defined.

Lemma aborted_cycle_witness :
  match createFileObject Sample.world (Script "main.ts" 1) Sample.parameters
          Sample.page with
  | Ok (files, _) =>
      consume Sample.world Sample.brokenGenerator =
      mkRun (List.concat [files]) (Some (ReadFailed "site/missing.css"))
  | Throw _ => False
  end.
Proof.
  destruct (createFileObject Sample.world (Script "main.ts" 1)
              Sample.parameters Sample.page) as [[files doc1]|e] eqn:E.
  - apply (aborted_cycle Sample.world Sample.brokenGenerator
             [Script "main.ts" 1] [Image ["photo"] 2] (Css "missing.css" 0)
             [files] doc1 (ReadFailed "site/missing.css")).
    + reflexivity.
    + econstructor; [exact E | constructor].
    + cbn [createFileObject]. rewrite css_createFileObject. reflexivity.
  - vm_compute in E. discriminate.
Defined.

Lemma livereload_script_survives_witness :
  exists groups doc',
    produces Sample.world Sample.parameters (assets Sample.liveGenerator)
      (HtmlAsset.doc (htmlAsset Sample.liveGenerator)) groups doc' /\
    List.last doc' (mkElement "" ∅) =
      mkElement "SCRIPT" {[ "src" := livereloadUrl (Some 35729%N) ]} /\
    Forall (fun a => elementOf a < length doc' - 1)
      (assets Sample.liveGenerator).
Proof.
  destruct (consume_produces Sample.world Sample.liveGenerator
              ltac:(vm_compute; reflexivity)) as (groups & doc' & H).
  exists groups, doc'. split; [exact H|].
  exact (livereload_script_survives Sample.world _ _ _ _ _ _
           sample_live_generateAssets eq_refl H).
Defined.

Example sample_watch_generateAssets :
  generateAssets Sample.world "site/index.html" Sample.watchOptions =
  Ok (Sample.generator,
      ["site/index.html"; "site/main.ts"; "site/style.scss"; "site/photo";
       "site/a.png"]).
Proof. vm_compute. reflexivity. Qed.

Lemma watch_list_witness :
  watchPaths Sample.watchOptions = true /\
  exists lists,
    Forall2 (fun a ps => getWatchPaths Sample.world a "site" = Ok ps)
      [Script "main.ts" 1; Scss "style.scss" 0; Image ["photo"; "a.png"] 2]
      lists /\
    ["site/index.html"; "site/main.ts"; "site/style.scss"; "site/photo";
     "site/a.png"] = "site/index.html" :: List.concat lists.
Proof.
  split; [reflexivity|].
  exact (proj2 (watch_list Sample.world _ _ _ _ sample_watch_generateAssets)
           eq_refl).
Defined.

End FurtherOnTheSampleSite.
